(** * Real-Time Chunking and asynchronous inference: a shallow embedding

    The development follows four source files:

    - [policies/rtc/modeling_rtc.py]: [RTCProcessor.get_prefix_weights] with
      its helpers, and [RTCProcessor.denoise_step];
    - [async_inference/policy_server.py]: the observation filter, [GetActions]
      and [_time_action_chunk] of [PolicyServer];
    - [async_inference/robot_client.py]: [RobotClient._aggregate_action_queues],
      [receive_actions] and the control loop;
    - [test/test.py]: the arrays of the time stamping.

    Python integers are [Z].  Floating-point scalars are kept behind the
    interface [Arith] (and [Ieee] for the operations on special values), with
    two interpretations: exact rationals [Q], and IEEE-754 binary floats of
    the Standard Library ([spec_float], any precision and exponent range).
    Python's [dict] and [set] are stdpp's [gmap] and [gset]. *)

From Stdlib Require Import ZArith QArith Qminmax Lia Bool List.
From Stdlib Require Import Floats.SpecFloat Sorting.Sorted.
From stdpp Require Import base option list gmap sets.

Local Open Scope Z_scope.

(* ===================================================================== *)
(** * Part I: definitions                                                 *)
(* ===================================================================== *)

(** ** Exceptions *)

Inductive exn : Type :=
  | RuntimeError      (* raised by torch on an invalid size or shape *)
  | IndexError        (* [shape[k]] past the rank of a tensor *)
  | AssertionError.   (* a failed [assert] *)

Inductive result (A : Type) : Type :=
  | Ok (a : A)
  | Raise (e : exn).
Arguments Ok {A} a.
Arguments Raise {A} e.

#[export] Instance result_ret : MRet result := fun A a => Ok a.
#[export] Instance result_bind : MBind result := fun A B k m =>
  match m with
  | Ok a => k a
  | Raise e => Raise e
  end.

(** ** Scalar arithmetic *)

(** The arithmetic a Python [float] or a torch scalar offers. [of_int] is the
    conversion Python applies to an [int] operand of a float operation. *)
Class Arith (R : Type) : Type := {
  fzero : R;
  fone : R;
  fadd : R -> R -> R;
  fsub : R -> R -> R;
  fmul : R -> R -> R;
  fdiv : R -> R -> R;
  of_int : Z -> R
}.

(** [torch.nan_to_num(x, posinf=p)] and [torch.minimum]. *)
Class Ieee (R : Type) : Type := {
  nan_to_num : R -> R -> R;
  minimum : R -> R -> R
}.

(** [torch.expm1] and [math.e], used by the EXP schedule only. *)
Class Transcend (R : Type) : Type := {
  expm1 : R -> R;
  math_e : R
}.

(** Exact rational arithmetic. *)
#[export] Instance Q_Arith : Arith Q := {
  fzero := 0%Q;
  fone := 1%Q;
  fadd := Qplus;
  fsub := Qminus;
  fmul := Qmult;
  fdiv := Qdiv;
  of_int := inject_Z
}.

(** ** Timed actions and observations (helpers.py, by their use) *)

Module TimedAction.
Record t (R A : Type) : Type := mk {
  timestamp : R;
  timestep : Z;
  action : A
}.
Arguments mk {R A} _ _ _.
Arguments timestamp {R A} _.
Arguments timestep {R A} _.
Arguments action {R A} _.
End TimedAction.

Module TimedObservation.
Record t (R O : Type) : Type := mk {
  timestamp : R;
  timestep : Z;
  observation : O;
  must_go : bool
}.
Arguments mk {R O} _ _ _ _.
Arguments timestamp {R O} _.
Arguments timestep {R O} _.
Arguments observation {R O} _.
Arguments must_go {R O} _.
End TimedObservation.

(** ** robot_client.py *)

Module RobotClient.
Section Client.
Context {R A : Type}.

#[local] Abbreviation TimedAction := (TimedAction.t R A).

(** The part of the client's state the merge reads and writes:
    [self.action_queue] (the items of the [Queue], oldest first) and
    [self.latest_action]. *)
Record state : Type := mk {
  action_queue : list TimedAction;
  latest_action : Z
}.

(** The default aggregate function: take the latest action. *)
Definition default_aggregate_fn (x1 x2 : A) : A := x2.

(** [{action.get_timestep(): action.get_action() for action in internal_queue}]:
    a later queue item overwrites an earlier one with the same timestep. *)
Definition current_action_queue (internal_queue : list TimedAction) : gmap Z A :=
  foldl (fun d a => <[TimedAction.timestep a := TimedAction.action a]> d) ∅ internal_queue.

(** One turn of the loop over [incoming_actions]: what is put on
    [future_action_queue], if anything. *)
Definition aggregate_one (aggregate_fn : A -> A -> A) (current : gmap Z A)
    (latest : Z) (new_action : TimedAction) : option TimedAction :=
  if TimedAction.timestep new_action <=? latest then None
  else match current !! TimedAction.timestep new_action with
       | None => Some new_action
       | Some old =>
           Some (TimedAction.mk (TimedAction.timestamp new_action)
                                (TimedAction.timestep new_action)
                                (aggregate_fn old (TimedAction.action new_action)))
       end.

(** [_aggregate_action_queues]: the queue is replaced by
    [future_action_queue], which receives items from the loop only. The
    locks are not modelled: the call runs to completion, so
    [self.latest_action] is the same at every turn of the loop. *)
Definition _aggregate_action_queues (self : state)
    (incoming_actions : list TimedAction)
    (aggregate_fn : option (A -> A -> A)) : state :=
  let aggregate_fn := default default_aggregate_fn aggregate_fn in
  let current := current_action_queue (action_queue self) in
  let future_action_queue :=
    omap (aggregate_one aggregate_fn current (latest_action self)) incoming_actions in
  mk future_action_queue (latest_action self).

(** The timesteps held by a queue. *)
Definition timesteps (q : list TimedAction) : list Z := map TimedAction.timestep q.
End Client.
End RobotClient.

(** ** Python sequences *)

Module Py.
Section Slices.
Context {A : Type}.

(** How [slice.indices] brings one bound of a slice into [0, n]: a negative
    bound counts from the end. *)
Definition norm_index (n i : Z) : Z :=
  if i <? 0 then Z.max (i + n) 0 else Z.min i n.

Definition bounds (n : Z) (lo hi : option Z) : Z * Z :=
  (from_option (norm_index n) 0 lo, from_option (norm_index n) n hi).

(** [l[lo:hi]] *)
Definition slice (l : list A) (lo hi : option Z) : list A :=
  let '(a, b) := bounds (Z.of_nat (length l)) lo hi in
  take (Z.to_nat (b - a)) (drop (Z.to_nat a) l).

(** [l[lo:hi] = v] for a scalar [v], as torch assigns it to a 1-D tensor. *)
Definition slice_fill (l : list A) (lo hi : option Z) (v : A) : list A :=
  let '(a, b) := bounds (Z.of_nat (length l)) lo hi in
  take (Z.to_nat a) l ++ replicate (Z.to_nat (b - a)) v
    ++ drop (Z.to_nat (Z.max a b)) l.
End Slices.
End Py.

(** ** modeling_rtc.py *)

Module RTC.

(** [lerobot.configs.types.RTCAttentionSchedule] *)
Inductive RTCAttentionSchedule : Type := ZEROS | ONES | LINEAR | EXP.

(** The fields of [RTCConfig] the processor reads. *)
Record RTCConfig (R : Type) : Type := mkConfig {
  execution_horizon : Z;
  max_guidance_weight : R;
  prefix_attention_schedule : RTCAttentionSchedule
}.
Arguments mkConfig {R} _ _ _.
Arguments execution_horizon {R} _.
Arguments max_guidance_weight {R} _.
Arguments prefix_attention_schedule {R} _.

Section Weights.
Context {R : Type} `{Arith R} `{Transcend R}.

(** [torch.zeros(n)], [torch.ones(n)]: a negative size is an error. *)
Definition torch_full (v : R) (n : Z) : result (list R) :=
  if n <? 0 then Raise RuntimeError else Ok (replicate (Z.to_nat n) v).

(** [torch.linspace(start, end, steps)]: [steps] points, evenly spaced,
    from [start] to [end]. *)
Definition linspace (start end_ : R) (steps : Z) : list R :=
  let step := fdiv (fsub end_ start) (of_int (steps - 1)) in
  map (fun i : nat => fadd start (fmul (of_int (Z.of_nat i)) step))
      (seq 0 (Z.to_nat steps)).

Definition _linweights (start end_ total : Z) : list R :=
  let skip_steps_at_end := Z.max (total - end_) 0 in
  let linspace_steps := total - skip_steps_at_end - start in
  if (end_ <=? start) || (linspace_steps <=? 0) then []
  else Py.slice (linspace fone fzero (linspace_steps + 2)) (Some 1) (Some (-1)).

Definition _add_trailing_zeros (weights : list R) (total end_ : Z) : list R :=
  let zeros_len := total - end_ in
  if zeros_len <=? 0 then weights
  else weights ++ replicate (Z.to_nat zeros_len) fzero.

Definition _add_leading_ones (weights : list R) (start total : Z) : list R :=
  let ones_len := Z.min start total in
  if ones_len <=? 0 then weights
  else replicate (Z.to_nat ones_len) fone ++ weights.

Definition get_prefix_weights (self : RTCConfig R) (start end_ total : Z)
    : result (list R) :=
  let start := Z.min start end_ in
  match prefix_attention_schedule self with
  | ZEROS =>
      weights ← torch_full fzero total;
      Ok (Py.slice_fill weights None (Some start) fone)
  | ONES =>
      weights ← torch_full fone total;
      Ok (Py.slice_fill weights (Some end_) None fzero)
  | LINEAR =>
      let lin_weights := _linweights start end_ total in
      let weights := _add_trailing_zeros lin_weights total end_ in
      Ok (_add_leading_ones weights start total)
  | EXP =>
      let lin_weights := _linweights start end_ total in
      let lin_weights :=
        map (fun r => fmul r (fdiv (expm1 r) (fsub math_e fone))) lin_weights in
      let weights := _add_trailing_zeros lin_weights total end_ in
      Ok (_add_leading_ones weights start total)
  end.
End Weights.

Section Guidance.
Context {R : Type} `{Arith R} `{Ieee R}.

(** The scalar of [denoise_step], from [max_guidance_weight] and
    [tau = 1 - time], both as tensors of one floating-point type. [x ** 2]
    is the product [x * x]. *)
Definition guidance_weight (max_guidance_weight tau_tensor : R) : R :=
  let one_minus_tau := fsub fone tau_tensor in
  let squared_one_minus_tau := fmul one_minus_tau one_minus_tau in
  let inv_r2 :=
    fdiv (fadd squared_one_minus_tau (fmul tau_tensor tau_tensor))
         squared_one_minus_tau in
  let c := nan_to_num (fdiv (fsub fone tau_tensor) tau_tensor) max_guidance_weight in
  let guidance_weight := nan_to_num (fmul c inv_r2) max_guidance_weight in
  minimum guidance_weight max_guidance_weight.
End Guidance.

(** *** Tensors and reverse-mode differentiation *)

(** The torch operations [denoise_step] applies to tensors, as an interface:
    torch is not part of the repository. Shapes are read through [shape];
    the elementwise operations are torch's, broadcasting included. *)
Class Torch (R T : Type) : Type := {
  shape : T -> list Z;
  unsqueeze_0 : T -> T;                 (* [t.unsqueeze(0)] *)
  squeeze_0 : T -> T;                   (* [t.squeeze(0)] *)
  zeros : Z -> Z -> Z -> T;             (* [torch.zeros(b, t, a)] *)
  assign_block : T -> T -> result T;    (* [dst[:, :src.shape[1], :src.shape[2]] = src] *)
  weights_tensor : list R -> T;         (* the weights, [.unsqueeze(0).unsqueeze(-1)] *)
  tadd : T -> T -> T;
  tsub : T -> T -> T;
  tmul : T -> T -> T;
  tneg : T -> T;
  smul : R -> T -> T                    (* a Python or 0-dim scalar times a tensor *)
}.

Section Autograd.
Context {R T : Type} `{Torch R T}.

(** What autograd records about a tensor, as far as the input [x_t] of
    [denoise_step] is concerned: [Detached] for a tensor whose history does
    not reach a tensor requiring gradients, [LeafInput] for [x_t] itself
    after [requires_grad_(True)], and one node per differentiable
    operation. A node keeps what its backward pass needs. *)
Inductive grad_fn : Type :=
  | Detached
  | LeafInput
  | SubBackward (a b : grad_fn)
  | MulBackward (a : grad_fn) (other_a : T) (b : grad_fn) (other_b : T)
  | ScalarMulBackward (s : R) (a : grad_fn)
  | FnBackward (vjp : T -> T) (a : grad_fn).

Record traced : Type := mkTraced {
  data : T;
  history : grad_fn
}.

Definition requires_grad (x : traced) : bool :=
  match history x with Detached => false | _ => true end.

(** [x.clone().detach()] *)
Definition clone_detach (x : traced) : traced := mkTraced (data x) Detached.

(** A tensor that comes from outside the graph. *)
Definition constant (x : T) : traced := mkTraced x Detached.

(** [x.requires_grad_(True)] on a tensor without history. *)
Definition requires_grad_ (x : traced) : traced := mkTraced (data x) LeafInput.

Definition traced_sub (a b : traced) : traced :=
  mkTraced (tsub (data a) (data b))
    (if requires_grad a || requires_grad b
     then SubBackward (history a) (history b) else Detached).

Definition traced_mul (a b : traced) : traced :=
  mkTraced (tmul (data a) (data b))
    (if requires_grad a || requires_grad b
     then MulBackward (history a) (data b) (history b) (data a) else Detached).

Definition traced_smul (s : R) (a : traced) : traced :=
  mkTraced (smul s (data a))
    (if requires_grad a then ScalarMulBackward s (history a) else Detached).

(** The base denoiser: a callable on tensors, with the vector-Jacobian
    product autograd would run through it at a given input. *)
Record Denoiser : Type := mkDenoiser {
  run : T -> T;
  vjp : T -> T -> T
}.

Definition call (f : Denoiser) (x : traced) : traced :=
  mkTraced (run f (data x))
    (if requires_grad x then FnBackward (vjp f (data x)) (history x) else Detached).

Definition accumulate (g1 g2 : option T) : option T :=
  match g1, g2 with
  | Some a, Some b => Some (tadd a b)
  | Some a, None => Some a
  | None, g => g
  end.

(** The gradient that reaches [LeafInput] when [g] enters at a node. *)
Fixpoint backward (n : grad_fn) (g : T) : option T :=
  match n with
  | Detached => None
  | LeafInput => Some g
  | SubBackward a b => accumulate (backward a g) (backward b (tneg g))
  | MulBackward a other_a b other_b =>
      accumulate (backward a (tmul g other_a)) (backward b (tmul g other_b))
  | ScalarMulBackward s a => backward a (smul s g)
  | FnBackward vjp a => backward a (vjp g)
  end.

(** [torch.autograd.grad(outputs, x_t, grad_outputs)[0]]: an error when the
    output does not depend on [x_t]. *)
Definition autograd_grad (outputs : traced) (grad_outputs : T) : result T :=
  match backward (history outputs) grad_outputs with
  | Some g => Ok g
  | None => Raise RuntimeError
  end.
End Autograd.
Arguments grad_fn : clear implicits.
Arguments traced : clear implicits.
Arguments Denoiser : clear implicits.

Section DenoiseStep.
Context {R T : Type} `{Arith R} `{Ieee R} `{Transcend R} `{Torch R T}.

(** [t.shape[k]] *)
Definition shape_at (t : T) (k : nat) : result Z :=
  match shape t !! k with
  | Some d => Ok d
  | None => Raise IndexError
  end.

Definition rank_below_3 (t : T) : bool := bool_decide (length (shape t) < 3)%nat.

(** What [denoise_step] makes of its tensor arguments before the guidance
    is computed: [x_t] with a batch dimension, the previous chunk with a
    batch dimension and padded with zeros, the prefix weights as a tensor,
    and whether the batch dimension was added. *)
Definition prepare (self : RTCConfig R) (x_t prev_chunk_left_over : T)
    (inference_delay : Z) (execution_horizon : option Z)
    : result (T * T * T * bool) :=
  let squeezed := rank_below_3 x_t in
  let x_t := if squeezed then unsqueeze_0 x_t else x_t in
  let prev_chunk_left_over :=
    if rank_below_3 prev_chunk_left_over
    then unsqueeze_0 prev_chunk_left_over else prev_chunk_left_over in
  let execution_horizon :=
    default (RTC.execution_horizon self) execution_horizon in
  prev_len ← shape_at prev_chunk_left_over 1;
  let execution_horizon :=
    if prev_len <? execution_horizon then prev_len else execution_horizon in
  batch_size ← shape_at x_t 0;
  action_chunk_size ← shape_at x_t 1;
  action_dim ← shape_at x_t 2;
  shorter ← (if prev_len <? action_chunk_size then Ok true
             else prev_dim ← shape_at prev_chunk_left_over 2;
                  Ok (prev_dim <? action_dim));
  prev_chunk_left_over ←
    (if shorter : bool
     then assign_block (zeros batch_size action_chunk_size action_dim)
                       prev_chunk_left_over
     else Ok prev_chunk_left_over);
  if bool_decide (shape prev_chunk_left_over = shape x_t) then
    weights ← get_prefix_weights self inference_delay execution_horizon
                                 action_chunk_size;
    Ok (x_t, prev_chunk_left_over, weights_tensor weights, squeezed)
  else Raise AssertionError.

(** The block under [torch.enable_grad()]: the base velocity, the weighted
    error and the correction. [x_t] enters detached; it is made a leaf
    after the denoiser has run. *)
Definition guidance_correction (time : R) (original_denoise_step_partial : Denoiser T)
    (x_t prev_chunk_left_over weights : T) : result (T * T * T) :=
  let x_t := clone_detach (constant x_t) in
  let v_t := call original_denoise_step_partial x_t in
  let x_t := requires_grad_ x_t in
  let x1_t := traced_sub x_t (traced_smul time v_t) in
  let err :=
    traced_mul (traced_sub (constant prev_chunk_left_over) x1_t) (constant weights) in
  let grad_outputs := clone_detach err in
  correction ← autograd_grad x1_t (data grad_outputs);
  Ok (data v_t, data err, correction).

(** [denoise_step]. [x_t.clone().detach()] keeps the data and drops the
    history, which is how [guidance_correction] starts; [self.track] only
    records debug data and is left out. *)
Definition denoise_step (self : RTCConfig R) (x_t : T)
    (prev_chunk_left_over : option T) (inference_delay : Z) (time : R)
    (original_denoise_step_partial : Denoiser T)
    (execution_horizon : option Z) : result T :=
  let tau := fsub fone time in
  match prev_chunk_left_over with
  | None =>
      let v_t := run original_denoise_step_partial x_t in
      Ok v_t
  | Some prev_chunk_left_over =>
      '(x_t, prev_chunk_left_over, weights, squeezed) ←
        prepare self x_t prev_chunk_left_over inference_delay execution_horizon;
      '(v_t, err, correction) ←
        guidance_correction time original_denoise_step_partial
                            x_t prev_chunk_left_over weights;
      let guidance_weight := guidance_weight (max_guidance_weight self) tau in
      let result := tsub v_t (smul guidance_weight correction) in
      Ok (if squeezed : bool then squeeze_0 result else result)
  end.
End DenoiseStep.

End RTC.

(** ** IEEE-754 binary floating point *)

Module Float.
Section Format.
(** [prec] bits of mantissa, infinities at exponent [emax]:
    [24, 128] is torch's default [float32], [53, 1024] Python's [float]. *)
Variables prec emax : Z.

Definition of_Z (z : Z) : spec_float := binary_normalize prec emax z 0 false.

Definition arith : Arith spec_float := {|
  fzero := S754_zero false;
  fone := SFone prec emax;
  fadd := SFadd prec emax;
  fsub := SFsub prec emax;
  fmul := SFmul prec emax;
  fdiv := SFdiv prec emax;
  of_int := of_Z
|}.

(** [torch.nan_to_num(x, posinf=p)]: [nan] and [neginf] keep their
    defaults, so NaN becomes [0.0] and negative infinity the lowest finite
    value of the type. *)
Definition SFnan_to_num (x posinf : spec_float) : spec_float :=
  match x with
  | S754_nan => S754_zero false
  | S754_infinity false => posinf
  | S754_infinity true => SFopp (SFmax_float prec emax)
  | _ => x
  end.

(** [torch.minimum]: a NaN operand is returned, otherwise the smaller. *)
Definition SFminimum (a b : spec_float) : spec_float :=
  match a, b with
  | S754_nan, _ | _, S754_nan => S754_nan
  | _, _ => if SFltb b a then b else a
  end.

Definition ieee : Ieee spec_float := {|
  nan_to_num := SFnan_to_num;
  minimum := SFminimum
|}.
End Format.

(** NaN, or the sign bit [s]. *)
Definition sign_or_nan (s : bool) (x : spec_float) : Prop :=
  match x with
  | S754_nan => True
  | S754_zero s' | S754_infinity s' | S754_finite s' _ _ => s' = s
  end.

(** Not below zero: a zero of either sign, or a positive value. *)
Definition at_least_zero (x : spec_float) : Prop := SFleb (S754_zero false) x = true.

(** NaN, a zero of either sign, or a positive value. *)
Definition at_least_zero_or_nan (x : spec_float) : Prop :=
  match x with
  | S754_nan | S754_zero _ => True
  | S754_infinity s | S754_finite s _ _ => s = false
  end.

(** [float32] *)
Definition b32_arith : Arith spec_float := arith 24 128.
Definition b32_ieee : Ieee spec_float := ieee 24 128.
Definition b32_of_Z : Z -> spec_float := of_Z 24 128.

(** [float64] *)
Definition b64_arith : Arith spec_float := arith 53 1024.
Definition b64_ieee : Ieee spec_float := ieee 53 1024.
Definition b64_of_Z : Z -> spec_float := of_Z 53 1024.
End Float.


(** ** policy_server.py *)

Module PolicyServer.
Section Server.
(** [R]: time stamps; [O]: raw observations; [P]: what the preprocessor
    hands to the policy; [A]: one post-processed action. *)
Context {R O P A : Type} `{Arith R}.

#[local] Abbreviation TimedObservation := (TimedObservation.t R O).
#[local] Abbreviation TimedAction := (TimedAction.t R A).

(** [self.config.environment_dt]; the configuration sets it to [1 / fps]. *)
Variable environment_dt : R.

(** [helpers.observations_similar], at the server's [lerobot_features]. *)
Variable observations_similar : TimedObservation -> TimedObservation -> bool.

(** The policy pipeline, outside this repository's core: the conversion
    and preprocessing of an observation, then inference and
    postprocessing. [None] stands for a raised exception. *)
Variable preprocess : TimedObservation -> option P.
Variable predict : P -> option (list A).

Record state : Type := mk {
  observation_queue : list TimedObservation;   (* [Queue(maxsize=1)], oldest first *)
  _predicted_timesteps : gset Z;
  last_processed_obs : option TimedObservation
}.

Definition maxsize : nat := 1.

(** A server as [__init__] leaves it. *)
Definition init : state := mk [] ∅ None.

Definition _reset_server (self : state) : state :=
  mk [] ∅ (last_processed_obs self).

Definition Ready (self : state) : state := _reset_server self.

Definition _obs_sanity_checks (self : state) (obs previous_obs : TimedObservation)
    : bool :=
  if bool_decide (TimedObservation.timestep obs ∈ _predicted_timesteps self)
  then false
  else if observations_similar obs previous_obs then false
  else true.

Definition full (q : list TimedObservation) : bool :=
  bool_decide (maxsize <= length q)%nat.

Definition _enqueue_observation (self : state) (obs : TimedObservation)
    : state * bool :=
  if TimedObservation.must_go obs
     || match last_processed_obs self with
        | None => true
        | Some previous_obs => _obs_sanity_checks self obs previous_obs
        end
  then
    let q := observation_queue self in
    let q := if full q then tail q else q in
    (mk (q ++ [obs]) (_predicted_timesteps self) (last_processed_obs self), true)
  else (self, false).

Definition SendObservations (self : state) (obs : TimedObservation) : state :=
  fst (_enqueue_observation self obs).

Fixpoint time_from (t_0 : R) (i_0 : Z) (i : Z) (action_chunk : list A)
    : list TimedAction :=
  match action_chunk with
  | [] => []
  | action :: rest =>
      TimedAction.mk (fadd t_0 (fmul (of_int i) environment_dt)) (i_0 + i) action
      :: time_from t_0 i_0 (i + 1) rest
  end.

(** The comprehension over [enumerate(action_chunk)]. *)
Definition _time_action_chunk (t_0 : R) (action_chunk : list A) (i_0 : Z)
    : list TimedAction :=
  time_from t_0 i_0 0 action_chunk.

(** [last_processed_obs] is assigned once the preprocessor has returned. *)
Definition _predict_action_chunk (self : state) (observation_t : TimedObservation)
    : state * option (list TimedAction) :=
  match preprocess observation_t with
  | None => (self, None)
  | Some observation =>
      let self :=
        mk (observation_queue self) (_predicted_timesteps self) (Some observation_t) in
      match predict observation with
      | None => (self, None)
      | Some actions =>
          (self, Some (_time_action_chunk (TimedObservation.timestamp observation_t)
                         actions (TimedObservation.timestep observation_t)))
      end
  end.

(** What one call of [GetActions] leaves behind: the reply ([None] for
    [Empty]) and, when inference was started, the observation given to
    [_predict_action_chunk]. *)
Record reply : Type := mkReply {
  actions : option (list TimedAction);
  inferred : option TimedObservation
}.

Definition GetActions (self : state) : state * reply :=
  match observation_queue self with
  | [] => (self, mkReply None None)
  | obs :: rest =>
      let self :=
        mk rest ({[TimedObservation.timestep obs]} ∪ _predicted_timesteps self)
           (last_processed_obs self) in
      let '(self, action_chunk) := _predict_action_chunk self obs in
      (self, mkReply action_chunk (Some obs))
  end.

(** The two streaming calls of a session, each run to completion. *)
Inductive rpc : Type :=
  | CallSendObservations (obs : TimedObservation)
  | CallGetActions.

Definition step (self : state) (c : rpc) : state * option TimedObservation :=
  match c with
  | CallSendObservations obs => (SendObservations self obs, None)
  | CallGetActions => let '(self, r) := GetActions self in (self, inferred r)
  end.

(** A sequence of calls; the result lists, in order, the observations that
    were passed to [_predict_action_chunk]. *)
Fixpoint run (self : state) (calls : list rpc) : state * list TimedObservation :=
  match calls with
  | [] => (self, [])
  | c :: calls =>
      let '(self, o) := step self c in
      let '(self, log) := run self calls in
      (self, from_option (fun x => [x]) [] o ++ log)
  end.

(** The observations a sequence of calls got into the queue, in order. *)
Fixpoint accepted (self : state) (calls : list rpc) : list TimedObservation :=
  match calls with
  | [] => []
  | c :: calls =>
      match c with
      | CallSendObservations obs =>
          (if snd (_enqueue_observation self obs) then [obs] else [])
            ++ accepted (fst (step self c)) calls
      | CallGetActions => accepted (fst (step self c)) calls
      end
  end.
End Server.
End PolicyServer.

(** ** Interpretations used to run the model *)

Module Demo.
(** Actions and observations named by an integer; time stamps in [Q]. *)
Definition act (stamp : Q) (step : Z) (a : Z) : TimedAction.t Q Z :=
  TimedAction.mk stamp step a.

Definition obs (step : Z) (content : Z) (must_go : bool) : TimedObservation.t Q Z :=
  TimedObservation.mk 0%Q step content must_go.

(** A preprocessor and a policy that always return; two observations are
    similar when their contents are equal. *)
Definition similar (a b : TimedObservation.t Q Z) : bool :=
  TimedObservation.observation a =? TimedObservation.observation b.
Definition preprocess (o : TimedObservation.t Q Z) : option Z :=
  Some (TimedObservation.observation o).
Definition predict (p : Z) : option (list Z) := Some [p; p + 1].

Definition environment_dt : Q := (1 / 50)%Q.

Definition server_run :=
  PolicyServer.run environment_dt similar preprocess predict.
Definition server_accepted :=
  PolicyServer.accepted environment_dt similar preprocess predict.
Definition enqueue := PolicyServer._enqueue_observation similar.
End Demo.

(** ** Tensors as nested lists *)

(** An interpretation of [RTC.Torch] on which [denoise_step] can be run:
    tensors of rank 2 and 3 as nested lists. Elementwise operations broadcast
    a dimension of size 1; sizes that torch would refuse do not occur in the
    runs of this file. *)
Module ListTensor.
Section Tensor.
Context {R : Type} `{Arith R}.

Inductive tensor : Type :=
  | Mat (rows : list (list R))              (* shape [(T, A)] *)
  | Batch (mats : list (list (list R))).    (* shape [(B, T, A)] *)

Definition len {X} (l : list X) : Z := Z.of_nat (length l).

Definition shape (t : tensor) : list Z :=
  match t with
  | Mat rows => [len rows; len (hd [] rows)]
  | Batch mats => [len mats; len (hd [] mats); len (hd [] (hd [] mats))]
  end.

Definition unsqueeze_0 (t : tensor) : tensor :=
  match t with
  | Mat rows => Batch [rows]
  | Batch mats => Batch mats
  end.

Definition squeeze_0 (t : tensor) : tensor :=
  match t with
  | Batch [rows] => Mat rows
  | _ => t
  end.

Definition zeros (b t a : Z) : tensor :=
  Batch (replicate (Z.to_nat b) (replicate (Z.to_nat t) (replicate (Z.to_nat a) fzero))).

Definition batches (t : tensor) : list (list (list R)) :=
  match t with
  | Mat rows => [rows]
  | Batch mats => mats
  end.

(** [dst[: len src] = src], one level down with [inner]. *)
Definition overwrite {X} (inner : X -> X -> X) (dst src : list X) : list X :=
  zip_with inner (take (length src) dst) src ++ drop (length src) dst.

Definition assign_block (dst src : tensor) : result tensor :=
  let d := batches dst in
  let s := batches src in
  if bool_decide (length d = length s)
     && bool_decide (len (hd [] s) <= len (hd [] d))
     && bool_decide (len (hd [] (hd [] s)) <= len (hd [] (hd [] d)))
  then Ok (Batch (zip_with (overwrite (overwrite (fun _ x => x))) d s))
  else Raise RuntimeError.

Definition weights_tensor (w : list R) : tensor := Batch [map (fun x => [x]) w].

Definition bzip {X} (f : X -> X -> X) (l1 l2 : list X) : list X :=
  match l1, l2 with
  | [a], _ => map (f a) l2
  | _, [b] => map (fun x => f x b) l1
  | _, _ => zip_with f l1 l2
  end.

Definition pointwise (f : R -> R -> R) (t1 t2 : tensor) : tensor :=
  match t1, t2 with
  | Mat r1, Mat r2 => Mat (bzip (bzip f) r1 r2)
  | _, _ => Batch (bzip (bzip (bzip f)) (batches t1) (batches t2))
  end.

Definition tmap (f : R -> R) (t : tensor) : tensor :=
  match t with
  | Mat rows => Mat (map (map f) rows)
  | Batch mats => Batch (map (map (map f)) mats)
  end.

#[export] Instance torch : RTC.Torch R tensor := {|
  RTC.shape := shape;
  RTC.unsqueeze_0 := unsqueeze_0;
  RTC.squeeze_0 := squeeze_0;
  RTC.zeros := zeros;
  RTC.assign_block := assign_block;
  RTC.weights_tensor := weights_tensor;
  RTC.tadd := pointwise fadd;
  RTC.tsub := pointwise fsub;
  RTC.tmul := pointwise fmul;
  RTC.tneg := tmap (fsub fzero);
  RTC.smul := fun s => tmap (fmul s)
|}.
End Tensor.
Arguments tensor : clear implicits.
End ListTensor.

(** ** A run of [denoise_step] in [float32] *)

Module Run32.
Definition z : Z -> spec_float := Float.b32_of_Z.
Definition half : spec_float := SFdiv 24 128 (z 1) (z 2).

(** [expm1] is not used by the schedules of the runs below. *)
Definition transcend : Transcend spec_float :=
  {| expm1 := fun x => x; math_e := z 0 |}.

Definition torch : RTC.Torch spec_float (ListTensor.tensor spec_float) :=
  @ListTensor.torch spec_float Float.b32_arith.

Definition config : RTC.RTCConfig spec_float := RTC.mkConfig 2 (z 5) RTC.LINEAR.

(** [x_t] of shape [(3, 2)], a previous chunk of shape [(1, 2)] and the
    denoiser [v = x]. *)
Definition x_t : ListTensor.tensor spec_float :=
  ListTensor.Mat [[z 1; z 2]; [z 3; z 4]; [z 5; z 6]].
Definition prev : ListTensor.tensor spec_float := ListTensor.Mat [[z 1; z 1]].
Definition identity_denoiser : RTC.Denoiser (ListTensor.tensor spec_float) :=
  RTC.mkDenoiser (fun t => t) (fun _ g => g).

Definition denoise_step :=
  @RTC.denoise_step spec_float _ Float.b32_arith Float.b32_ieee transcend torch.
Definition guidance_weight :=
  @RTC.guidance_weight spec_float Float.b32_arith Float.b32_ieee.
End Run32.

(** ** The order of the two statements under [enable_grad] *)

Module Counterfactual.
Section Eager.
Context {R T : Type} `{RTC.Torch R T}.

(** Not in the source: the block of [RTC.guidance_correction] with
    [x_t.requires_grad_(True)] moved before the call of the denoiser. It is
    here to compare the gradient with, nothing else uses it. *)
Definition guidance_correction_leaf_first (time : R)
    (original_denoise_step_partial : RTC.Denoiser T)
    (x_t prev_chunk_left_over weights : T) : result (T * T * T) :=
  let x_t := RTC.requires_grad_ (RTC.clone_detach (RTC.constant x_t)) in
  let v_t := RTC.call original_denoise_step_partial x_t in
  let x1_t := RTC.traced_sub x_t (RTC.traced_smul time v_t) in
  let err :=
    RTC.traced_mul (RTC.traced_sub (RTC.constant prev_chunk_left_over) x1_t)
                   (RTC.constant weights) in
  let grad_outputs := RTC.clone_detach err in
  correction ← RTC.autograd_grad x1_t (RTC.data grad_outputs);
  Ok (RTC.data v_t, RTC.data err, correction).
End Eager.
End Counterfactual.

(** ** Notions the properties are stated with *)

Module Exact.
(** The sum of the elements of a weight vector, in exact arithmetic. *)
Definition total (w : list Q) : Q := foldr Qplus 0%Q w.

(** [expm1] and [math.e] enter the EXP schedule only; the properties below
    are about the three other schedules and hold whatever these are. *)
Definition transcend : Transcend Q := {| expm1 := fun x => x; math_e := 0%Q |}.

Definition config (schedule : RTC.RTCAttentionSchedule) : RTC.RTCConfig Q :=
  RTC.mkConfig 10 10%Q schedule.

Definition weights (schedule : RTC.RTCAttentionSchedule) (start end_ total : Z)
    : result (list Q) :=
  @RTC.get_prefix_weights Q Q_Arith transcend (config schedule) start end_ total.
End Exact.

(** ** test.py: the arrays of the time stamping *)

Module TestScript.
Section Arrays.
Context {R : Type} `{Arith R}.

(** [np.arange(start=i_0, stop=i_0 + chunk_size, step=1, dtype=np.int64)] *)
Definition timestep_arange (i_0 chunk_size : Z) : list Z := seqZ i_0 chunk_size.

(** [np.arange(chunk_size, dtype=np.float64) * environment_dt] *)
Definition time_delta (environment_dt : R) (chunk_size : Z) : list R :=
  map (fun i => fmul (of_int i) environment_dt) (seqZ 0 chunk_size).

(** [t_0 + time_delta] *)
Definition timestamp (t_0 environment_dt : R) (chunk_size : Z) : list R :=
  map (fadd t_0) (time_delta environment_dt chunk_size).
End Arrays.
End TestScript.

(** ** robot_client.py: the control loop *)

(** [<=] on floats. *)
Class Order (R : Type) : Type := { fle : R -> R -> bool }.

(** [<=] on rationals. *)
#[export] Instance Q_Order : Order Q := {| fle := Qle_bool |}.

Module ControlLoop.
(** What the control loop can raise. *)
Inductive error : Type :=
  | Empty                 (* [queue.Empty], from [get_nowait] *)
  | ZeroDivisionError.

Inductive outcome (X : Type) : Type :=
  | Returns (x : X)
  | Raises (e : error).
Arguments Returns {X} x.
Arguments Raises {X} e.

Section Loop.
Context {R O A : Type} `{Arith R} `{Order R}.

#[local] Abbreviation TimedAction := (TimedAction.t R A).
#[local] Abbreviation TimedObservation := (TimedObservation.t R O).

(** [self.config.aggregate_fn] and [self._chunk_size_threshold]. *)
Variable aggregate_fn : option (A -> A -> A).
Variable _chunk_size_threshold : R.

(** [raw_observation["task"] = task] *)
Variable with_task : O -> O.

(** The client: the queue and the latest executed timestep of
    [RobotClient.state], the event [must_go] and [action_chunk_size]. The
    list [action_queue_size], kept for a debug plot, is left out. *)
Record state : Type := mk {
  core : @RobotClient.state R A;
  must_go : bool;
  action_chunk_size : Z
}.

(** A client as [__init__] leaves it. *)
Definition init : state := mk (RobotClient.mk [] (-1)) true (-1).

(** One turn of the loop of [receive_actions] in which [GetActions] replied
    with a list of timed actions. *)
Definition receive_actions (self : state) (timed_actions : list TimedAction) : state :=
  let action_chunk_size :=
    Z.max (action_chunk_size self) (Z.of_nat (length timed_actions)) in
  mk (RobotClient._aggregate_action_queues (core self) timed_actions aggregate_fn)
     true action_chunk_size.

Definition actions_available (self : state) : bool :=
  match RobotClient.action_queue (core self) with [] => false | _ => true end.

(** [control_loop_action]: the oldest item leaves the queue, is performed,
    and its timestep becomes [latest_action]. *)
Definition control_loop_action (self : state) : outcome (state * TimedAction) :=
  match RobotClient.action_queue (core self) with
  | [] => Raises Empty
  | timed_action :: rest =>
      Returns (mk (RobotClient.mk rest (TimedAction.timestep timed_action))
                  (must_go self) (action_chunk_size self),
               timed_action)
  end.

(** [qsize() / action_chunk_size <= threshold], the quotient of two
    integers as a float. *)
Definition _ready_to_send_observation (self : state) : outcome bool :=
  if action_chunk_size self =? 0 then Raises ZeroDivisionError
  else Returns
         (fle (fdiv (of_int (Z.of_nat (length (RobotClient.action_queue (core self)))))
                    (of_int (action_chunk_size self)))
              _chunk_size_threshold).

(** [control_loop_observation], for the observation [raw_observation] read
    from the robot at the time [now]: the observation handed to
    [send_observation], and the client afterwards. The robot is taken to
    return an observation; the flag [must_go] is cleared whether or not the
    call to the server succeeds. *)
Definition control_loop_observation (self : state) (raw_observation : O) (now : R)
    : state * TimedObservation :=
  let latest_action := RobotClient.latest_action (core self) in
  let observation_must_go :=
    must_go self
    && match RobotClient.action_queue (core self) with [] => true | _ => false end in
  let observation :=
    TimedObservation.mk now (Z.max latest_action 0) (with_task raw_observation)
                        observation_must_go in
  (mk (core self) (if observation_must_go then false else must_go self)
      (action_chunk_size self),
   observation).

(** What one turn of [control_loop] did: the action performed and the
    observation sent, if any. *)
Record turn : Type := mkTurn {
  performed : option TimedAction;
  sent : option TimedObservation
}.

Definition control_loop_turn (self : state) (raw_observation : O) (now : R)
    : outcome (state * turn) :=
  match (if actions_available self
         then match control_loop_action self with
              | Returns (self, a) => Returns (self, Some a)
              | Raises e => Raises e
              end
         else Returns (self, None)) with
  | Raises e => Raises e
  | Returns (self, _performed_action) =>
      match _ready_to_send_observation self with
      | Raises e => Raises e
      | Returns true =>
          let '(self, observation) := control_loop_observation self raw_observation now in
          Returns (self, mkTurn _performed_action (Some observation))
      | Returns false => Returns (self, mkTurn _performed_action None)
      end
  end.

(** The two threads of the client, each step run to completion: a reply
    deserialised to a list of actions and handled by [receive_actions], or a
    turn of [control_loop]. *)
Inductive event : Type :=
  | Reply (timed_actions : list TimedAction)
  | Turn (raw_observation : O) (now : R).

(** What a run leaves behind: the client at the end, the actions performed
    and the observations handed to [send_observation], in order, and the
    exception that ended the control loop, if any. *)
Record trace : Type := mkTrace {
  final : state;
  performed_actions : list TimedAction;
  sent_observations : list TimedObservation;
  raised : option error
}.

Fixpoint run (self : state) (events : list event) : trace :=
  match events with
  | [] => mkTrace self [] [] None
  | Reply timed_actions :: events => run (receive_actions self timed_actions) events
  | Turn raw_observation now :: events =>
      match control_loop_turn self raw_observation now with
      | Raises e => mkTrace self [] [] (Some e)
      | Returns (self, t) =>
          let rest := run self events in
          mkTrace (final rest)
                  (from_option (fun a => [a]) [] (performed t) ++ performed_actions rest)
                  (from_option (fun o => [o]) [] (sent t) ++ sent_observations rest)
                  (raised rest)
      end
  end.

(** The replies among the events of a run. *)
Definition replies (events : list event) : list (list TimedAction) :=
  omap (fun e => match e with Reply timed_actions => Some timed_actions | Turn _ _ => None end)
       events.

(** The turns of the control loop among the events of a run. *)
Definition turns (events : list event) : list (O * R) :=
  omap (fun e => match e with
                 | Reply _ => None
                 | Turn raw_observation now => Some (raw_observation, now)
                 end)
       events.

(** The queue holds increasing timesteps, all later than [latest_action]. *)
Definition queue_ordered (self : state) : Prop :=
  StronglySorted Z.lt
    (RobotClient.latest_action (core self)
     :: RobotClient.timesteps (RobotClient.action_queue (core self))).

End Loop.
End ControlLoop.

(* ===================================================================== *)
(** * Part II: properties                                                 *)
(* ===================================================================== *)

(** ** Time stamping ([PolicyServer._time_action_chunk]) *)

Section TimeStampingFacts.
Context {R A : Type} `{Arith R}.
Variable environment_dt : R.

Lemma time_from_imap (t_0 : R) (i_0 i : Z) (action_chunk : list A) :
  PolicyServer.time_from environment_dt t_0 i_0 i action_chunk =
  imap (fun (k : nat) action =>
          TimedAction.mk (fadd t_0 (fmul (of_int (i + Z.of_nat k)) environment_dt))
                         (i_0 + (i + Z.of_nat k)) action)
       action_chunk.
Proof.
  revert i. induction action_chunk as [|a l IH]; intros i; simpl.
  - reflexivity.
  - rewrite Z.add_0_r. f_equal. rewrite IH.
    apply imap_ext. intros k x _. simpl.
    by replace (i + 1 + Z.of_nat k) with (i + Z.of_nat (S k)) by lia.
Qed.
End TimeStampingFacts.

(** C9. [_time_action_chunk] gives the [i]-th action of a chunk the time
    stamp [t_0 + i * environment_dt] and the timestep [i_0 + i], whatever the
    arithmetic of the time stamps; with [i_0 = 10], ten actions, [t_0 = 0.1]
    and [environment_dt = 0.02] in exact arithmetic, the timesteps are
    [10 .. 19] and the time stamps [0.10, 0.12, ..., 0.28]. *)
Theorem time_action_chunk_stamps :
  (forall (R A : Type) (HR : Arith R) (environment_dt t_0 : R)
          (action_chunk : list A) (i_0 : Z),
     PolicyServer._time_action_chunk environment_dt t_0 action_chunk i_0 =
     imap (fun (i : nat) action =>
             TimedAction.mk (fadd t_0 (fmul (of_int (Z.of_nat i)) environment_dt))
                            (i_0 + Z.of_nat i) action)
          action_chunk)
  /\ (let chunk := PolicyServer._time_action_chunk (0.02)%Q (0.1)%Q
                     (replicate 10 tt) 10 in
      map TimedAction.timestep chunk = [10; 11; 12; 13; 14; 15; 16; 17; 18; 19]
      /\ Forall2 Qeq (map TimedAction.timestamp chunk)
           [0.10; 0.12; 0.14; 0.16; 0.18; 0.20; 0.22; 0.24; 0.26; 0.28]%Q).
Proof.
  split.
  - intros. unfold PolicyServer._time_action_chunk.
    rewrite time_from_imap. apply imap_ext. intros k x _. simpl.
    by rewrite Z.add_0_l.
  - split; [reflexivity|].
    repeat (constructor; [reflexivity|]). constructor.
Qed.

(** ** The client's merge ([RobotClient._aggregate_action_queues]) *)

Section ClientFacts.
Context {R A : Type}.
Implicit Types (q : list (TimedAction.t R A)) (new old a : TimedAction.t R A).

Lemma current_action_queue_snoc q a :
  RobotClient.current_action_queue (q ++ [a]) =
  <[TimedAction.timestep a := TimedAction.action a]> (RobotClient.current_action_queue q).
Proof. unfold RobotClient.current_action_queue. by rewrite foldl_app. Qed.

Lemma current_action_queue_None q (ts : Z) :
  RobotClient.current_action_queue q !! ts = None <-> ts ∉ RobotClient.timesteps q.
Proof.
  induction q as [|a q IH] using rev_ind.
  - unfold RobotClient.timesteps; simpl. split; [intros _|done]. apply not_elem_of_nil.
  - rewrite current_action_queue_snoc. unfold RobotClient.timesteps in *.
    rewrite map_app, lookup_insert_None, IH, not_elem_of_app. simpl.
    rewrite list_elem_of_singleton. intuition congruence.
Qed.

(** A timestep of the dictionary maps to the action of the last queue entry
    that carries it. *)
Lemma current_action_queue_Some q (ts : Z) (x : A) :
  RobotClient.current_action_queue q !! ts = Some x ->
  exists q1 old q2,
    q = q1 ++ old :: q2 /\ TimedAction.timestep old = ts
    /\ TimedAction.action old = x /\ ts ∉ RobotClient.timesteps q2.
Proof.
  induction q as [|a q IH] using rev_ind.
  - done.
  - rewrite current_action_queue_snoc.
    destruct (decide (TimedAction.timestep a = ts)) as [Heq|Hne].
    + rewrite Heq, lookup_insert_eq. intros [= <-].
      exists q, a, []. repeat split; try done. apply not_elem_of_nil.
    + rewrite lookup_insert_ne by done. intros Hx.
      destruct (IH Hx) as (q1 & old & q2 & -> & Hts & Hact & Hnot).
      exists q1, old, (q2 ++ [a]). repeat split; try done.
      * by rewrite <- app_assoc.
      * unfold RobotClient.timesteps in *. rewrite map_app, not_elem_of_app. simpl.
        rewrite list_elem_of_singleton. intuition congruence.
Qed.

Lemma aggregate_one_None fn (d : gmap Z A) (latest : Z) new :
  RobotClient.aggregate_one fn d latest new = None <->
  TimedAction.timestep new <= latest.
Proof.
  unfold RobotClient.aggregate_one.
  destruct (Z.leb_spec (TimedAction.timestep new) latest).
  - done.
  - destruct (d !! _); split; (done || lia).
Qed.
End ClientFacts.

(** C1 (as amended). The merge builds a new queue from the incoming list
    alone: an incoming item is dropped when its timestep is at most the
    latest executed one; otherwise it is appended to the new queue, as it is
    when the old queue holds no entry of that timestep, and with its action
    aggregated with that of the last such entry otherwise (the default keeps
    the newer action). The new queue replaces the old one, so an old entry
    whose timestep is not among the incoming ones is gone after the merge. *)
Theorem aggregate_action_queues_rebuilds :
  forall (R A : Type) (self : @RobotClient.state R A)
         (incoming : list (TimedAction.t R A)) (aggregate_fn : option (A -> A -> A)),
    RobotClient.latest_action
      (RobotClient._aggregate_action_queues self incoming aggregate_fn)
    = RobotClient.latest_action self
    /\ Forall2
         (fun a new =>
            TimedAction.timestamp a = TimedAction.timestamp new
            /\ TimedAction.timestep a = TimedAction.timestep new
            /\ (((TimedAction.timestep new
                    ∉ RobotClient.timesteps (RobotClient.action_queue self))
                 /\ a = new)
                \/ exists q1 old q2,
                     RobotClient.action_queue self = q1 ++ old :: q2
                     /\ TimedAction.timestep old = TimedAction.timestep new
                     /\ (TimedAction.timestep new ∉ RobotClient.timesteps q2)
                     /\ TimedAction.action a =
                        default RobotClient.default_aggregate_fn aggregate_fn
                          (TimedAction.action old) (TimedAction.action new)))
         (RobotClient.action_queue
            (RobotClient._aggregate_action_queues self incoming aggregate_fn))
         (filter (fun new => RobotClient.latest_action self < TimedAction.timestep new)
                 incoming)
    /\ (forall older newer : A, RobotClient.default_aggregate_fn older newer = newer)
    /\ forall old,
         old ∈ RobotClient.action_queue self ->
         TimedAction.timestep old ∉ RobotClient.timesteps incoming ->
         TimedAction.timestep old
           ∉ RobotClient.timesteps
               (RobotClient.action_queue
                  (RobotClient._aggregate_action_queues self incoming aggregate_fn)).
Proof.
  intros R A self incoming fn.
  split; [reflexivity|].
  match goal with |- ?P /\ _ => assert (Hmain : P) end.
  { unfold RobotClient._aggregate_action_queues; simpl.
    induction incoming as [|new l IH]; simpl; [constructor|].
    destruct (RobotClient.aggregate_one _ _ _ new) as [a|] eqn:Hone.
    - assert (Hlt : RobotClient.latest_action self < TimedAction.timestep new).
      { destruct (Z.le_gt_cases (TimedAction.timestep new)
                    (RobotClient.latest_action self)) as [Hle|]; [|lia].
        apply (aggregate_one_None (default RobotClient.default_aggregate_fn fn)
                 (RobotClient.current_action_queue (RobotClient.action_queue self)))
          in Hle. congruence. }
      rewrite filter_cons_True by done. constructor; [|exact IH].
      unfold RobotClient.aggregate_one in Hone.
      destruct (Z.leb_spec (TimedAction.timestep new) (RobotClient.latest_action self));
        [lia|].
      destruct (RobotClient.current_action_queue _ !! _) as [x|] eqn:Hd.
      + injection Hone as <-. simpl. repeat split.
        right. apply current_action_queue_Some in Hd
          as (q1 & old & q2 & Hq & Hts & Hact & Hnot).
        exists q1, old, q2. by rewrite Hact.
      + injection Hone as <-. repeat split.
        left. split; [|done]. by apply current_action_queue_None.
    - apply aggregate_one_None in Hone.
      rewrite filter_cons_False by lia. exact IH. }
  split; [exact Hmain|]. split; [reflexivity|].
  intros old _ Hnot Hin. apply Hnot. clear Hnot.
  unfold RobotClient.timesteps in *.
  apply list_elem_of_fmap in Hin as (a & -> & Ha).
  apply list_elem_of_lookup in Ha as [i Hi].
  destruct (Forall2_lookup_l _ _ _ _ _ Hmain Hi) as (new & Hnew & _ & -> & _).
  apply list_elem_of_fmap. exists new. split; [done|].
  apply list_elem_of_lookup_2 in Hnew.
  by apply list_elem_of_filter in Hnew as [_ ?].
Qed.

(** C1, as stated, fails: with [[5]] queued, [4] the latest executed
    timestep and an incoming list [[6]], the entry of timestep [5] does not
    appear among the incoming timesteps and yet is not in the queue after the
    merge. *)
Lemma aggregate_action_queues_drops_unmatched :
  ~ (forall (self : @RobotClient.state Q Z) (incoming : list (TimedAction.t Q Z))
            (old : TimedAction.t Q Z),
       old ∈ RobotClient.action_queue self ->
       TimedAction.timestep old ∉ RobotClient.timesteps incoming ->
       old ∈ RobotClient.action_queue
               (RobotClient._aggregate_action_queues self incoming None)).
Proof.
  intros Hclaim.
  specialize (Hclaim (RobotClient.mk [Demo.act 0 5 50] 4) [Demo.act 0 6 60]
                     (Demo.act 0 5 50)).
  simpl in Hclaim.
  assert (Hin : Demo.act 0 5 50 ∈ [Demo.act 0 6 60]).
  { apply Hclaim.
    - apply list_elem_of_singleton. reflexivity.
    - unfold RobotClient.timesteps. simpl. rewrite list_elem_of_singleton. lia. }
  apply list_elem_of_singleton in Hin. discriminate Hin.
Qed.

(** ** The guidance step ([RTCProcessor.denoise_step]) *)

(** C4. Without a previous chunk, [denoise_step] returns what the base
    denoiser returns on the [x_t] it was given: no correction, no change of
    shape, for every configuration, input, time and denoiser. *)
Theorem denoise_step_without_prefix :
  forall (R T : Type) (HA : Arith R) (HI : Ieee R) (HT : Transcend R)
         (HTorch : RTC.Torch R T)
         (self : RTC.RTCConfig R) (x_t : T) (inference_delay : Z) (time : R)
         (original_denoise_step_partial : RTC.Denoiser T)
         (execution_horizon : option Z),
    RTC.denoise_step self x_t None inference_delay time
                     original_denoise_step_partial execution_horizon
    = Ok (RTC.run original_denoise_step_partial x_t).
Proof.
  intros. unfold RTC.denoise_step.
  (* the match on [None] takes the first branch *)
  reflexivity.
Qed.

Section GuidanceFacts.
Context {R T : Type} `{Arith R} `{Ieee R} `{Transcend R} `{RTC.Torch R T}.

(** The velocity is computed before [x_t] requires gradients, so it enters
    the graph of [x1_t] as a constant. *)
Lemma call_on_detached (f : RTC.Denoiser T) (x : T) :
  RTC.history (RTC.call f (RTC.clone_detach (RTC.constant (R:=R) x)))
  = RTC.Detached.
Proof. reflexivity. Qed.

Lemma backward_x1_t (time : R) (f : RTC.Denoiser T) (x g : T) :
  let x_t := RTC.clone_detach (RTC.constant (R:=R) x) in
  let v_t := RTC.call f x_t in
  RTC.backward
    (RTC.history (RTC.traced_sub (RTC.requires_grad_ x_t) (RTC.traced_smul time v_t))) g
  = Some g.
Proof. reflexivity. Qed.

(** With the leaf made first, the gradient goes through the denoiser too. *)
Lemma leaf_first_correction (time : R) (f : RTC.Denoiser T) (x p w : T) :
  let v := RTC.run f x in
  let e := RTC.tmul (RTC.tsub p (RTC.tsub x (RTC.smul time v))) w in
  Counterfactual.guidance_correction_leaf_first time f x p w
  = Ok (v, e, RTC.tadd e (RTC.vjp f x (RTC.smul time (RTC.tneg e)))).
Proof. reflexivity. Qed.
End GuidanceFacts.


(** A run in [float32]: [x_t] of three steps, a previous chunk of one step,
    [v = x] and [time = 0.5]. Only the first step is corrected, by
    [g = 2] times the error [(0.5, 0)]. *)
Example denoise_step_run :
  Run32.guidance_weight (Run32.z 5) Run32.half = Run32.z 2
  /\ Run32.denoise_step Run32.config Run32.x_t (Some Run32.prev) 1 Run32.half
       Run32.identity_denoiser None
     = Ok (ListTensor.Mat [[Run32.z 0; Run32.z 2];
                           [Run32.z 3; Run32.z 4];
                           [Run32.z 5; Run32.z 6]]).
Proof. split; vm_compute; reflexivity. Qed.

(** ** The policy server's observation filter and inference log *)

Section EnqueueFacts.
Context {R O : Type}.
Variable observations_similar : TimedObservation.t R O -> TimedObservation.t R O -> bool.

#[local] Abbreviation enqueue := (PolicyServer._enqueue_observation observations_similar).
Implicit Types (self : @PolicyServer.state R O) (obs : TimedObservation.t R O).

Lemma enqueue_accepts self obs :
  snd (enqueue self obs) = true <->
  TimedObservation.must_go obs = true
  \/ PolicyServer.last_processed_obs self = None
  \/ exists previous_obs,
       PolicyServer.last_processed_obs self = Some previous_obs
       /\ (TimedObservation.timestep obs ∉ PolicyServer._predicted_timesteps self)
       /\ observations_similar obs previous_obs = false.
Proof.
  unfold PolicyServer._enqueue_observation, PolicyServer._obs_sanity_checks.
  destruct (TimedObservation.must_go obs); simpl; [by intuition|].
  destruct (PolicyServer.last_processed_obs self) as [prev|]; simpl; [|by intuition].
  case_bool_decide as Hin; simpl.
  - split; [done|]. intros [?|[?|(p' & [= <-] & Hn & _)]]; done.
  - destruct (observations_similar obs prev) eqn:Hsim; simpl.
    + split; [done|]. intros [?|[?|(p' & [= <-] & _ & Hs)]]; congruence.
    + split; [|done]. intros _. right; right. by exists prev.
Qed.

Lemma enqueue_rejected self obs :
  snd (enqueue self obs) = false -> fst (enqueue self obs) = self.
Proof.
  unfold PolicyServer._enqueue_observation.
  by destruct (_ || _).
Qed.

Lemma enqueue_accepted self obs :
  snd (enqueue self obs) = true ->
  fst (enqueue self obs) =
  PolicyServer.mk
    ((if PolicyServer.full (PolicyServer.observation_queue self)
      then tail (PolicyServer.observation_queue self)
      else PolicyServer.observation_queue self) ++ [obs])
    (PolicyServer._predicted_timesteps self)
    (PolicyServer.last_processed_obs self).
Proof.
  unfold PolicyServer._enqueue_observation.
  by destruct (_ || _).
Qed.

End EnqueueFacts.

Section ServerFacts.
Context {R O P A : Type} `{Arith R}.
Variable environment_dt : R.
Variable observations_similar : TimedObservation.t R O -> TimedObservation.t R O -> bool.
Variable preprocess : TimedObservation.t R O -> option P.
Variable predict : P -> option (list A).

#[local] Abbreviation state := (@PolicyServer.state R O).
#[local] Abbreviation rpc := (@PolicyServer.rpc R O).
#[local] Abbreviation run :=
  (PolicyServer.run (A:=A) environment_dt observations_similar preprocess predict).
#[local] Abbreviation enqueue := (PolicyServer._enqueue_observation observations_similar).
#[local] Abbreviation get_actions :=
  (PolicyServer.GetActions (A:=A) environment_dt preprocess predict).
Implicit Types (self : state) (obs : TimedObservation.t R O) (calls : list rpc).




Lemma get_actions_queue self :
  PolicyServer.observation_queue (fst (get_actions self))
  = tail (PolicyServer.observation_queue self).
Proof.
  unfold PolicyServer.GetActions, PolicyServer._predict_action_chunk.
  destruct (PolicyServer.observation_queue self) as [|o q] eqn:Hqueue; simpl; [done|].
  destruct (preprocess o) as [x|]; simpl; [|done].
  by destruct (predict x).
Qed.

Lemma get_actions_inferred self :
  PolicyServer.inferred (snd (get_actions self)) = head (PolicyServer.observation_queue self)
  /\ PolicyServer._predicted_timesteps (fst (get_actions self))
     = match head (PolicyServer.observation_queue self) with
       | Some obs => {[TimedObservation.timestep obs]} ∪ PolicyServer._predicted_timesteps self
       | None => PolicyServer._predicted_timesteps self
       end.
Proof.
  unfold PolicyServer.GetActions, PolicyServer._predict_action_chunk.
  destruct (PolicyServer.observation_queue self) as [|o q]; simpl; [done|].
  destruct (preprocess o) as [x|]; simpl; [|done].
  by destruct (predict x).
Qed.

End ServerFacts.




(** C8 (as amended). [_enqueue_observation] accepts an observation if and
    only if (a) its [must_go] flag is true, or (b) no observation has been
    processed by inference yet ([last_processed_obs] is [None]), or (c) its
    timestep is not among the predicted ones and it is not similar to the
    last processed observation. Otherwise it returns [false] and the server
    is unchanged; on acceptance the observation is put at the end of the
    queue, after the oldest one is removed from a full queue. *)
Theorem enqueue_observation_accepts_iff :
  forall (R O : Type)
         (observations_similar : TimedObservation.t R O -> TimedObservation.t R O -> bool)
         (self : @PolicyServer.state R O) (obs : TimedObservation.t R O),
    (snd (PolicyServer._enqueue_observation observations_similar self obs) = true <->
     TimedObservation.must_go obs = true
     \/ PolicyServer.last_processed_obs self = None
     \/ exists previous_obs,
          PolicyServer.last_processed_obs self = Some previous_obs
          /\ (TimedObservation.timestep obs ∉ PolicyServer._predicted_timesteps self)
          /\ observations_similar obs previous_obs = false)
    /\ (snd (PolicyServer._enqueue_observation observations_similar self obs) = false
        -> fst (PolicyServer._enqueue_observation observations_similar self obs) = self)
    /\ (snd (PolicyServer._enqueue_observation observations_similar self obs) = true
        -> fst (PolicyServer._enqueue_observation observations_similar self obs)
           = PolicyServer.mk
               ((if PolicyServer.full (PolicyServer.observation_queue self)
                 then tail (PolicyServer.observation_queue self)
                 else PolicyServer.observation_queue self) ++ [obs])
               (PolicyServer._predicted_timesteps self)
               (PolicyServer.last_processed_obs self)).
Proof.
  intros R O sim self obs. split; [|split].
  - apply enqueue_accepts.
  - apply enqueue_rejected.
  - apply enqueue_accepted.
Qed.

(** After one observation was accepted and none processed, a second one,
    not forced and similar to the first, is accepted by (b) of the theorem;
    after [GetActions] has processed the first, it is rejected. *)
Lemma enqueue_observation_accepts_iff_witness :
  snd (Demo.enqueue
         (fst (Demo.server_run PolicyServer.init
                 [PolicyServer.CallSendObservations (Demo.obs 0 7 false)]))
         (Demo.obs 1 7 false)) = true
  /\ snd (Demo.enqueue
           (fst (Demo.server_run PolicyServer.init
                   [PolicyServer.CallSendObservations (Demo.obs 0 7 false);
                    PolicyServer.CallGetActions]))
           (Demo.obs 1 7 false)) = false.
Proof.
  split.
  - apply (enqueue_observation_accepts_iff Q Z Demo.similar). right. left. reflexivity.
  - apply not_true_is_false. intros Hacc.
    destruct (enqueue_observation_accepts_iff Q Z Demo.similar
                (fst (Demo.server_run PolicyServer.init
                        [PolicyServer.CallSendObservations (Demo.obs 0 7 false);
                         PolicyServer.CallGetActions]))
                (Demo.obs 1 7 false)) as [[Honly_if _] _].
    destruct (Honly_if Hacc) as [Hgo|[Hnone|(prev & Hprev & _ & Hsim)]].
    + discriminate Hgo.
    + discriminate Hnone.
    + injection Hprev as <-. discriminate Hsim.
Defined.

(** C8, as stated, fails: (b) and (c) of the claim speak of the observations
    accepted so far, the code of the observations processed so far. After a
    first observation was accepted into the queue and before any inference,
    a second one that is not forced and is similar to the first meets none
    of (a), (b), (c) of the claim, and is accepted. *)
Lemma enqueue_accepts_before_first_inference :
  ~ (forall (calls : list (@PolicyServer.rpc Q Z)) (obs : TimedObservation.t Q Z),
       snd (Demo.enqueue (fst (Demo.server_run PolicyServer.init calls)) obs) = true <->
       TimedObservation.must_go obs = true
       \/ Demo.server_accepted PolicyServer.init calls = []
       \/ ((TimedObservation.timestep obs
              ∉ PolicyServer._predicted_timesteps
                  (fst (Demo.server_run PolicyServer.init calls)))
           /\ exists previous_obs,
                last (Demo.server_accepted PolicyServer.init calls) = Some previous_obs
                /\ Demo.similar obs previous_obs = false)).
Proof.
  intros Hclaim.
  destruct (Hclaim [PolicyServer.CallSendObservations (Demo.obs 0 7 false)]
                   (Demo.obs 1 7 false)) as [Honly_if _].
  destruct (Honly_if eq_refl) as [Hgo|[Hnone|(_ & prev & Hprev & Hsim)]].
  - discriminate Hgo.
  - discriminate Hnone.
  - injection Hprev as <-. discriminate Hsim.
Qed.

(** ** The prefix weights ([RTCProcessor.get_prefix_weights]) *)

Section SliceFacts.
Context {X : Type}.
Implicit Types (l : list X) (v : X).

(** [w[:stop] = v] on [n] copies of [u], for [0 <= stop]. *)
Lemma slice_fill_prefix (n : nat) (stop : Z) (u v : X) :
  0 <= stop ->
  Py.slice_fill (replicate n u) None (Some stop) v
  = replicate (Z.to_nat (Z.min stop (Z.of_nat n))) v
    ++ replicate (n - Z.to_nat (Z.min stop (Z.of_nat n))) u.
Proof.
  intros Hstop. unfold Py.slice_fill, Py.bounds, Py.norm_index. simpl.
  rewrite length_replicate.
  destruct (Z.ltb_spec stop 0); [lia|].
  rewrite Z.sub_0_r, Z.max_r by lia.
  by rewrite drop_replicate.
Qed.

(** [w[start:] = v] on [n] copies of [u], for [0 <= start]. *)
Lemma slice_fill_suffix (n : nat) (start : Z) (u v : X) :
  0 <= start ->
  Py.slice_fill (replicate n u) (Some start) None v
  = replicate (Z.to_nat (Z.min start (Z.of_nat n))) u
    ++ replicate (n - Z.to_nat (Z.min start (Z.of_nat n))) v.
Proof.
  intros Hstart. unfold Py.slice_fill, Py.bounds, Py.norm_index. simpl.
  rewrite length_replicate.
  destruct (Z.ltb_spec start 0); [lia|].
  rewrite Z.max_r by lia.
  rewrite take_replicate, drop_replicate.
  replace (n - Z.to_nat (Z.of_nat n))%nat with 0%nat by lia.
  simpl. rewrite app_nil_r. f_equal; f_equal; lia.
Qed.

(** [l[1:-1]] drops the first and the last element. *)
Lemma slice_inner l :
  (2 <= length l)%nat ->
  Py.slice l (Some 1) (Some (-1)) = take (length l - 2) (drop 1 l).
Proof.
  intros Hlen. unfold Py.slice, Py.bounds, Py.norm_index. simpl.
  destruct (Z.ltb_spec 1 0); [lia|].
  rewrite Z.min_l, Z.max_l by lia.
  f_equal. lia.
Qed.
End SliceFacts.

Section ExactSums.
Lemma total_app (l1 l2 : list Q) :
  (Exact.total (l1 ++ l2) == Exact.total l1 + Exact.total l2)%Q.
Proof.
  induction l1 as [|x l1 IH]; simpl.
  - by rewrite Qplus_0_l.
  - fold (Exact.total (l1 ++ l2)). fold (Exact.total l1).
    rewrite IH. apply Qplus_assoc.
Qed.

Lemma total_ones (n : nat) :
  (Exact.total (replicate n 1%Q) == inject_Z (Z.of_nat n))%Q.
Proof.
  induction n as [|n IH].
  - reflexivity.
  - change (1 + Exact.total (replicate n 1) == inject_Z (Z.of_nat (S n)))%Q.
    rewrite IH. change 1%Q with (inject_Z 1).
    rewrite <- inject_Z_plus. apply inject_Z_injective. lia.
Qed.

Lemma total_zeros (n : nat) : (Exact.total (replicate n 0%Q) == 0)%Q.
Proof.
  induction n as [|n IH].
  - reflexivity.
  - change (0 + Exact.total (replicate n 0) == 0)%Q.
    by rewrite IH.
Qed.
End ExactSums.

(** C6 (as amended). For [total >= 0]: under ZEROS with
    [min(start, end) >= 0] the weights sum to [min(min(start, end), total)],
    under ONES with [end >= 0] they sum to [min(end, total)]; in particular
    [weights(3, 7, 10, ZEROS) = [1,1,1,0,0,0,0,0,0,0]]. *)
Theorem zeros_ones_weights_sum :
  forall start end_ total : Z,
    0 <= total ->
    (0 <= Z.min start end_ ->
     exists w, Exact.weights RTC.ZEROS start end_ total = Ok w
               /\ (Exact.total w == inject_Z (Z.min (Z.min start end_) total))%Q)
    /\ (0 <= end_ ->
        exists w, Exact.weights RTC.ONES start end_ total = Ok w
                  /\ (Exact.total w == inject_Z (Z.min end_ total))%Q)
    /\ Exact.weights RTC.ZEROS 3 7 10 = Ok [1; 1; 1; 0; 0; 0; 0; 0; 0; 0]%Q.
Proof.
  intros start end_ total Htotal.
  unfold Exact.weights, RTC.get_prefix_weights, RTC.torch_full. simpl.
  destruct (Z.ltb_spec total 0); [lia|]. simpl.
  split; [|split].
  - intros Hstart. eexists. split; [reflexivity|].
    rewrite slice_fill_prefix by done.
    rewrite total_app, total_ones, total_zeros, Qplus_0_r.
    apply inject_Z_injective. lia.
  - intros Hend. eexists. split; [reflexivity|].
    rewrite slice_fill_suffix by done.
    rewrite total_app, total_ones, total_zeros, Qplus_0_r.
    apply inject_Z_injective. lia.
  - reflexivity.
Qed.

Lemma zeros_ones_weights_sum_witness :
  (exists w, Exact.weights RTC.ZEROS 3 7 10 = Ok w
             /\ (Exact.total w == inject_Z (Z.min (Z.min 3 7) 10))%Q)
  /\ (exists w, Exact.weights RTC.ONES 3 7 10 = Ok w
                /\ (Exact.total w == inject_Z (Z.min 7 10))%Q).
Proof.
  destruct (zeros_ones_weights_sum 3 7 10) as (Hzeros & Hones & _); [lia|].
  split; [apply Hzeros|apply Hones]; lia.
Defined.

(** C6, as stated for all integers, fails: with [start = -1] the slice
    [weights[:-1]] covers all positions but the last, so
    [weights(-1, 5, 3, ZEROS) = [1, 1, 0]] sums to [2], not to
    [min(-1, 3) = -1]. *)
Lemma zeros_weights_negative_start :
  ~ (forall start end_ total : Z,
       exists w, Exact.weights RTC.ZEROS start end_ total = Ok w
                 /\ (Exact.total w == inject_Z (Z.min (Z.min start end_) total))%Q).
Proof.
  intros Hclaim.
  destruct (Hclaim (-1) 5 3) as (w & Hw & Hsum).
  vm_compute in Hw. injection Hw as <-.
  vm_compute in Hsum. discriminate Hsum.
Qed.

Section LinearFacts.
Context {R : Type} `{Arith R}.

Lemma add_leading_ones_eq (weights : list R) (start total : Z) :
  RTC._add_leading_ones weights start total
  = replicate (Z.to_nat (Z.min start total)) fone ++ weights.
Proof.
  unfold RTC._add_leading_ones.
  destruct (Z.leb_spec (Z.min start total) 0); [|done].
  by replace (Z.to_nat (Z.min start total)) with 0%nat by lia.
Qed.

Lemma add_trailing_zeros_eq (weights : list R) (total end_ : Z) :
  RTC._add_trailing_zeros weights total end_
  = weights ++ replicate (Z.to_nat (total - end_)) fzero.
Proof.
  unfold RTC._add_trailing_zeros.
  destruct (Z.leb_spec (total - end_) 0); [|done].
  replace (Z.to_nat (total - end_)) with 0%nat by lia.
  by rewrite app_nil_r.
Qed.

Lemma length_linspace (a b : R) (steps : Z) :
  length (RTC.linspace a b steps) = Z.to_nat steps.
Proof. unfold RTC.linspace. by rewrite length_map, length_seq. Qed.

Lemma lookup_linspace (a b : R) (steps : Z) (k : nat) :
  (k < Z.to_nat steps)%nat ->
  RTC.linspace a b steps !! k
  = Some (fadd a (fmul (of_int (Z.of_nat k)) (fdiv (fsub b a) (of_int (steps - 1))))).
Proof.
  intros Hk. unfold RTC.linspace.
  change (map ?f ?l) with (f <$> l).
  by rewrite list_lookup_fmap, lookup_seq_lt.
Qed.

(** The ramp has [min(end, total) - start] elements, the inner points of
    [linspace(1, 0, min(end, total) - start + 2)]. *)
Lemma linweights_ramp (start end_ total : Z) :
  start < end_ -> start < total ->
  RTC._linweights start end_ total
  = take (Z.to_nat (Z.min end_ total - start))
         (drop 1 (RTC.linspace fone fzero (Z.min end_ total - start + 2))).
Proof.
  intros Hend Htotal. unfold RTC._linweights.
  replace (total - Z.max (total - end_) 0 - start) with (Z.min end_ total - start)
    by lia.
  destruct (Z.leb_spec end_ start); [lia|].
  destruct (Z.leb_spec (Z.min end_ total - start) 0); [lia|]. simpl.
  rewrite slice_inner; rewrite length_linspace; [|lia].
  f_equal. lia.
Qed.

Lemma linweights_empty (start end_ total : Z) :
  end_ <= start \/ total <= start -> RTC._linweights start end_ total = [].
Proof.
  intros Hor. unfold RTC._linweights.
  destruct (Z.leb_spec end_ start); [done|].
  destruct (Z.leb_spec (total - Z.max (total - end_) 0 - start) 0); [done|lia].
Qed.
End LinearFacts.

(** The points of [linspace(1, 0, n + 2)] in exact arithmetic. *)
Lemma linspace_one_zero (n : Z) (k : nat) :
  0 <= n -> (k < Z.to_nat (n + 2))%nat ->
  exists v, RTC.linspace 1%Q 0%Q (n + 2) !! k = Some v
            /\ (v == 1 - inject_Z (Z.of_nat k) / inject_Z (n + 1))%Q.
Proof.
  intros Hn Hk. eexists. split; [by apply lookup_linspace|]. simpl.
  replace (n + 2 - 1) with (n + 1) by lia.
  assert (Hne : ~ (inject_Z (n + 1) == 0)%Q).
  { change 0%Q with (inject_Z 0). rewrite inject_Z_injective. lia. }
  field. exact Hne.
Qed.

(** C5 (as amended). Under LINEAR, with [s = min(start, end) >= 0],
    [total >= 0] and [m = min(end, total)], the weights are a vector of
    length [total]: [1] on the positions below [s], the points of
    [linspace(1, 0, m - s + 2)] without the first and the last on [[s, m)],
    strictly decreasing there, and [0] on [[end, total)]. For [end <= total]
    this is the ramp [linspace(1, 0, end - s + 2)] on [[s, end)]; in
    particular [weights(2, 6, 8) = [1, 1, 0.8, 0.6, 0.4, 0.2, 0, 0]]. *)
Theorem linear_prefix_weights :
  forall start end_ total : Z,
    0 <= Z.min start end_ -> 0 <= total ->
    (exists w,
      Exact.weights RTC.LINEAR start end_ total = Ok w
      /\ Z.of_nat (length w) = total
      /\ (forall k : nat,
            Z.of_nat k < Z.min (Z.min start end_) total -> w !! k = Some 1%Q)
      /\ (forall k : nat,
            Z.min start end_ <= Z.of_nat k < Z.min end_ total ->
            exists v,
              w !! k = Some v
              /\ RTC.linspace 1%Q 0%Q (Z.min end_ total - Z.min start end_ + 2)
                   !! (k - Z.to_nat (Z.min start end_) + 1)%nat = Some v
              /\ (v == 1 - inject_Z (Z.of_nat k - Z.min start end_ + 1)
                           / inject_Z (Z.min end_ total - Z.min start end_ + 1))%Q)
      /\ (forall k : nat, end_ <= Z.of_nat k < total -> w !! k = Some 0%Q)
      /\ (forall (k k' : nat) (v v' : Q),
            Z.min start end_ <= Z.of_nat k -> (k < k')%nat ->
            Z.of_nat k' < Z.min end_ total ->
            w !! k = Some v -> w !! k' = Some v' -> (v' < v)%Q))
    /\ (exists w, Exact.weights RTC.LINEAR 2 6 8 = Ok w
                  /\ Forall2 Qeq w [1; 1; 0.8; 0.6; 0.4; 0.2; 0; 0]%Q).
Proof.
  intros start end_ total Hs Ht.
  split.
  2: { eexists. split; [reflexivity|].
       repeat (constructor; [reflexivity|]). constructor. }
  set (s := Z.min start end_) in *.
  set (m := Z.min end_ total).
  assert (Hse : s <= end_) by (unfold s; lia).
  eexists. split; [reflexivity|].
  fold s.
  rewrite add_leading_ones_eq, add_trailing_zeros_eq.
  change (@fone Q Q_Arith) with 1%Q. change (@fzero Q Q_Arith) with 0%Q.
  set (ramp := RTC._linweights s end_ total).
  assert (Hramp_len : Z.of_nat (length ramp) = Z.max (m - s) 0).
  { unfold ramp. destruct (Z_lt_le_dec s end_) as [Hlt|Hle].
    - destruct (Z_lt_le_dec s total) as [Hlt'|Hle'].
      + rewrite linweights_ramp by done. fold m.
        rewrite length_take, length_drop, length_linspace. lia.
      + rewrite linweights_empty by lia. simpl. lia.
    - rewrite linweights_empty by lia. simpl. lia. }
  assert (Hramp_at : forall k : nat,
            s <= Z.of_nat k < m ->
            ramp !! (k - Z.to_nat s)%nat
            = RTC.linspace 1%Q 0%Q (m - s + 2) !! (k - Z.to_nat s + 1)%nat).
  { intros k Hk. unfold ramp.
    rewrite linweights_ramp by lia. fold m.
    rewrite lookup_take_lt by lia. rewrite lookup_drop. f_equal. lia. }
  assert (Hclosed : forall k : nat,
            s <= Z.of_nat k < m ->
            exists v,
              (replicate (Z.to_nat (Z.min s total)) 1%Q
                 ++ ramp ++ replicate (Z.to_nat (total - end_)) 0%Q) !! k = Some v
              /\ RTC.linspace 1%Q 0%Q (m - s + 2) !! (k - Z.to_nat s + 1)%nat = Some v
              /\ (v == 1 - inject_Z (Z.of_nat k - s + 1) / inject_Z (m - s + 1))%Q).
  { intros k Hk.
    destruct (linspace_one_zero (m - s) (k - Z.to_nat s + 1)) as (v & Hv & Hval);
      [lia|lia|].
    exists v. split; [|split].
    - rewrite lookup_app_r; rewrite length_replicate; [|lia].
      replace (Z.to_nat (Z.min s total)) with (Z.to_nat s) by lia.
      rewrite lookup_app_l by lia.
      by rewrite Hramp_at.
    - exact Hv.
    - rewrite Hval. replace (m - s + 1) with (m - s + 1) by lia.
      replace (Z.of_nat (k - Z.to_nat s + 1)) with (Z.of_nat k - s + 1) by lia.
      reflexivity. }
  split; [|split; [|split; [|split]]].
  - rewrite !length_app, !length_replicate. lia.
  - intros k Hk. rewrite lookup_app_l by (rewrite length_replicate; lia).
    apply lookup_replicate_2. lia.
  - exact Hclosed.
  - intros k Hk.
    rewrite lookup_app_r; rewrite length_replicate; [|lia].
    rewrite lookup_app_r by lia.
    apply lookup_replicate_2. lia.
  - intros k k' v v' Hlo Hlt Hhi Hv Hv'.
    destruct (Hclosed k) as (u & Hu & _ & Hval); [lia|].
    destruct (Hclosed k') as (u' & Hu' & _ & Hval'); [lia|].
    rewrite Hv in Hu. injection Hu as <-.
    rewrite Hv' in Hu'. injection Hu' as <-.
    rewrite Hval, Hval'.
    apply Qplus_lt_r. apply Qopp_lt_compat.
    apply Qmult_lt_r.
    + apply Qinv_lt_0_compat. change 0%Q with (inject_Z 0).
      rewrite <- Zlt_Qlt. lia.
    + rewrite <- Zlt_Qlt. lia.
Qed.

Lemma linear_prefix_weights_witness :
  exists w, Exact.weights RTC.LINEAR 2 6 8 = Ok w
            /\ Z.of_nat (length w) = 8
            /\ w !! 1%nat = Some 1%Q
            /\ w !! 6%nat = Some 0%Q.
Proof.
  destruct (linear_prefix_weights 2 6 8) as [(w & Hw & Hlen & Hones & _ & Hzeros & _) _];
    [lia|lia|].
  exists w. split; [exact Hw|]. split; [exact Hlen|].
  split; [apply Hones|apply Hzeros]; lia.
Defined.

(** C5, as stated for all integers, fails when [end > total]: the ramp is
    spread over the positions that exist. [weights(0, 4, 2)] is
    [[2/3, 1/3]], the inner points of [linspace(1, 0, 4)], while the claim
    puts the points [0.8, 0.6] of [linspace(1, 0, 6)] there. *)
Lemma linear_weights_end_past_total :
  ~ (forall start end_ total : Z,
       exists w,
         Exact.weights RTC.LINEAR start end_ total = Ok w
         /\ Z.of_nat (length w) = total
         /\ (forall (k : nat) (v : Q),
               Z.of_nat k < Z.min start end_ -> w !! k = Some v -> v = 1%Q)
         /\ (forall (k : nat) (v : Q),
               Z.min start end_ <= Z.of_nat k < end_ -> w !! k = Some v ->
               exists v',
                 RTC.linspace 1%Q 0%Q (end_ - Z.min start end_ + 2)
                   !! (k - Z.to_nat (Z.min start end_) + 1)%nat = Some v'
                 /\ (v == v')%Q)
         /\ (forall (k : nat) (v : Q),
               end_ <= Z.of_nat k < total -> w !! k = Some v -> v = 0%Q)).
Proof.
  intros Hclaim.
  destruct (Hclaim 0 4 2) as (w & Hw & _ & _ & Hramp & _).
  vm_compute in Hw. injection Hw as <-.
  destruct (Hramp 0%nat (2 # 3)%Q) as (v' & Hv' & Heq); [lia|reflexivity|].
  vm_compute in Hv'. injection Hv' as <-.
  vm_compute in Heq. discriminate Heq.
Qed.

(** ** The guidance scalar in IEEE-754 arithmetic *)

Section FloatFacts.
Variables prec emax : Z.

#[local] Abbreviation sign_or_nan := Float.sign_or_nan.
#[local] Abbreviation at_least_zero := Float.at_least_zero.
#[local] Abbreviation at_least_zero_or_nan := Float.at_least_zero_or_nan.

Lemma digits2_bounds (m : positive) :
  2 ^ (Zpos (digits2_pos m) - 1) <= Zpos m < 2 ^ Zpos (digits2_pos m).
Proof.
  induction m as [m IH|m IH|]; simpl digits2_pos.
  - rewrite Pos2Z.inj_succ.
    replace (Z.succ (Zpos (digits2_pos m)) - 1) with (Z.succ (Zpos (digits2_pos m) - 1)) by lia.
    rewrite !Z.pow_succ_r by lia. lia.
  - rewrite Pos2Z.inj_succ.
    replace (Z.succ (Zpos (digits2_pos m)) - 1) with (Z.succ (Zpos (digits2_pos m) - 1)) by lia.
    rewrite !Z.pow_succ_r by lia. lia.
  - simpl. lia.
Qed.

Lemma shl_align_fst (m : positive) (e e' : Z) :
  e' <= e -> Zpos (fst (shl_align m e e')) = Zpos m * 2 ^ (e - e').
Proof.
  intros He. unfold shl_align.
  destruct (e' - e) as [|d|d] eqn:Hd; simpl.
  - replace (e - e') with 0 by lia. lia.
  - lia.
  - change (Pos.iter xO m d) with (shift_pos d m).
    rewrite shift_pos_correct. replace (e - e') with (Zpos d) by lia.
    change (Z.pow_pos 2 d) with (2 ^ Zpos d). lia.
Qed.

Lemma binary_round_aux_sign (sx : bool) (mx ex : Z) (lx : location) :
  sign_or_nan sx (binary_round_aux prec emax sx mx ex lx).
Proof.
  unfold binary_round_aux.
  destruct (shr_fexp prec emax mx ex lx) as [mrs' e'].
  destruct (shr_fexp prec emax _ e' loc_Exact) as [mrs'' e''].
  destruct (shr_m mrs''); simpl; [done| |done].
  by destruct (e'' <=? emax - prec).
Qed.

Lemma binary_round_sign (sx : bool) (mx : positive) (ex : Z) :
  sign_or_nan sx (binary_round prec emax sx mx ex).
Proof.
  unfold binary_round. destruct (shl_align _ _ _). apply binary_round_aux_sign.
Qed.

Lemma binary_normalize_sign (m e : Z) :
  0 <= m -> sign_or_nan false (binary_normalize prec emax m e false).
Proof.
  intros Hm. destruct m; simpl; [done| |lia]. apply binary_round_sign.
Qed.

Lemma SFmul_sign (x y : spec_float) (sx sy : bool) :
  sign_or_nan sx x -> sign_or_nan sy y ->
  sign_or_nan (xorb sx sy) (SFmul prec emax x y).
Proof.
  destruct x as [s1|s1| |s1 m1 e1], y as [s2|s2| |s2 m2 e2]; simpl;
    try done; try (intros -> ->; done).
  intros -> ->. apply binary_round_aux_sign.
Qed.

Lemma SFdiv_sign (x y : spec_float) (sx sy : bool) :
  sign_or_nan sx x -> sign_or_nan sy y ->
  sign_or_nan (xorb sx sy) (SFdiv prec emax x y).
Proof.
  destruct x as [s1|s1| |s1 m1 e1], y as [s2|s2| |s2 m2 e2]; simpl;
    try done; try (intros -> ->; done).
  intros -> ->.
  destruct (SFdiv_core_binary _ _ _ _ _ _) as [[mz ez] lz].
  apply binary_round_aux_sign.
Qed.

Lemma SFadd_sign (x y : spec_float) :
  sign_or_nan false x -> sign_or_nan false y ->
  sign_or_nan false (SFadd prec emax x y).
Proof.
  destruct x as [s1|s1| |s1 m1 e1], y as [s2|s2| |s2 m2 e2]; simpl;
    try done; try (intros -> ->; done).
  intros -> ->. apply binary_normalize_sign. simpl. lia.
Qed.

Lemma fexp_monotone (a b : Z) : a <= b -> fexp prec emax a <= fexp prec emax b.
Proof. unfold fexp. lia. Qed.

(** [y - x] for [0 <= x <= y], [x] not the negative zero: never negative. *)
Lemma SFsub_sign (x y : spec_float) :
  valid_binary prec emax x = true -> valid_binary prec emax y = true ->
  sign_or_nan false x -> sign_or_nan false y ->
  SFleb x y = true ->
  sign_or_nan false (SFsub prec emax y x).
Proof.
  destruct x as [s1|s1| |s1 m1 e1], y as [s2|s2| |s2 m2 e2]; simpl;
    try done; try (intros _ _ -> ->; done).
  intros Hx Hy -> ->. unfold SFleb, SFcompare.
  intros Hle. apply binary_normalize_sign. simpl.
  unfold bounded, canonical_mantissa in Hx, Hy.
  apply andb_prop in Hx as [Hx _]. apply andb_prop in Hy as [Hy _].
  apply Z.eqb_eq in Hx. apply Z.eqb_eq in Hy.
  destruct (Z.compare_spec e1 e2) as [Heq|Hlt|Hgt]; [| |done].
  - subst e2. rewrite Z.min_id.
    rewrite !shl_align_fst by lia. rewrite Z.sub_diag. simpl.
    assert (m1 <= m2)%positive.
    { unfold Pos.le. rewrite Pos.compare_cont_spec in Hle. simpl in Hle.
      by destruct (m1 ?= m2)%positive. }
    lia.
  - rewrite Z.min_r by lia.
    rewrite !shl_align_fst by lia. rewrite Z.sub_diag. simpl.
    assert (Hd : Zpos (digits2_pos m1) + e1 < Zpos (digits2_pos m2) + e2).
    { destruct (Z_lt_le_dec (Zpos (digits2_pos m1) + e1) (Zpos (digits2_pos m2) + e2))
        as [|Hge]; [done|].
      apply fexp_monotone in Hge. lia. }
    pose proof (digits2_bounds m1) as [_ Hm1].
    pose proof (digits2_bounds m2) as [Hm2 _].
    assert (2 ^ Zpos (digits2_pos m1) <= 2 ^ (Zpos (digits2_pos m2) - 1) * 2 ^ (e2 - e1)).
    { rewrite <- Z.pow_add_r by lia. apply Z.pow_le_mono_r; lia. }
    assert (0 < 2 ^ (e2 - e1)) by (apply Z.pow_pos_nonneg; lia).
    nia.
Qed.

Lemma digits2_shift (m d : positive) :
  digits2_pos (Pos.iter xO m d) = (digits2_pos m + d)%positive.
Proof.
  induction d as [|d IH] using Pos.peano_ind.
  - simpl. lia.
  - rewrite Pos.iter_succ. simpl. rewrite IH. lia.
Qed.

(** A mantissa that is canonical at its exponent is not rounded. *)
Lemma binary_round_aux_canonical (s : bool) (m : positive) (e : Z) :
  fexp prec emax (Zpos (digits2_pos m) + e) = e -> e <= emax - prec ->
  binary_round_aux prec emax s (Zpos m) e loc_Exact = S754_finite s m e.
Proof.
  intros Hcanon Hmax. unfold binary_round_aux, shr_fexp. simpl Zdigits2.
  rewrite Hcanon, Z.sub_diag. simpl.
  rewrite Hcanon, Z.sub_diag. simpl.
  by destruct (Z.leb_spec e (emax - prec)); [|lia].
Qed.

Lemma SFcompare_antisym (x y : spec_float) :
  SFcompare y x = CompOpp <$> SFcompare x y.
Proof.
  destruct x as [s1|s1| |s1 m1 e1], y as [s2|s2| |s2 m2 e2]; simpl;
    try done; try (by destruct s1); try (by destruct s2);
    try (by destruct s1, s2).
  assert (Hm : Pos.compare_cont Eq m2 m1 = CompOpp (Pos.compare_cont Eq m1 m2)).
  { symmetry. apply (Pos.compare_cont_antisym m1 m2 Eq). }
  f_equal. rewrite Hm, (Z.compare_antisym e1 e2).
  destruct s1, s2; simpl; try done; by destruct (e1 ?= e2).
Qed.

Lemma SFleb_refl (x : spec_float) : x <> S754_nan -> SFleb x x = true.
Proof.
  intros Hx. unfold SFleb.
  destruct x as [s|s| |s m e]; simpl; try done.
  - by destruct s.
  - rewrite Z.compare_refl, Pos.compare_cont_refl. by destruct s.
Qed.

(** Of two comparable values, the one that is not below the other is
    above it. *)
Lemma SFltb_false_SFleb (x y : spec_float) :
  x <> S754_nan -> y <> S754_nan -> SFltb y x = false -> SFleb x y = true.
Proof.
  intros Hx Hy. unfold SFltb, SFleb. rewrite (SFcompare_antisym x y).
  destruct (SFcompare x y) as [[]|] eqn:Hc; simpl; try done.
  destruct x, y; try done; simpl in Hc; try (by destruct s); try (by destruct s0).
Qed.

Lemma at_least_zero_spec (x : spec_float) :
  at_least_zero x <-> x <> S754_nan /\ at_least_zero_or_nan x.
Proof.
  unfold at_least_zero, SFleb.
  destruct x as [s|s| |s m e]; simpl; try (by intuition); destruct s; by intuition.
Qed.

Lemma sign_false_at_least_zero (x : spec_float) :
  sign_or_nan false x -> at_least_zero_or_nan x.
Proof. by destruct x. Qed.

Lemma nan_to_num_at_least_zero (x posinf : spec_float) :
  at_least_zero_or_nan x -> at_least_zero posinf ->
  at_least_zero (Float.SFnan_to_num prec emax x posinf).
Proof.
  intros Hx Hp. destruct x as [s|s| |s m e]; simpl in *; try done.
  - by subst s.
  - subst s. by apply at_least_zero_spec.
Qed.

Lemma SFmul_at_least_zero (c i : spec_float) :
  at_least_zero c -> sign_or_nan false i ->
  at_least_zero_or_nan (SFmul prec emax c i).
Proof.
  intros Hc Hi. apply at_least_zero_spec in Hc as [_ Hc].
  destruct c as [s1|s1| |s1 m1 e1], i as [s2|s2| |s2 m2 e2]; simpl in *;
    try done; try (by subst).
  subst. apply sign_false_at_least_zero, binary_round_aux_sign.
Qed.

Lemma minimum_bounds (x m : spec_float) :
  at_least_zero x -> at_least_zero m ->
  at_least_zero (Float.SFminimum x m) /\ SFleb (Float.SFminimum x m) m = true.
Proof.
  intros Hx Hm.
  assert (Hxn : x <> S754_nan) by (by apply at_least_zero_spec in Hx as [? _]).
  assert (Hmn : m <> S754_nan) by (by apply at_least_zero_spec in Hm as [? _]).
  assert (Hmin : Float.SFminimum x m = if SFltb m x then m else x).
  { unfold Float.SFminimum. by destruct x, m. }
  rewrite Hmin. destruct (SFltb m x) eqn:Hlt.
  - split; [done|]. by apply SFleb_refl.
  - split; [done|]. by apply SFltb_false_SFleb.
Qed.

Hypothesis Hprec : 0 < prec.
Hypothesis Hemax : prec < emax.

Lemma SFone_finite :
  exists m, SFone prec emax = S754_finite false m (1 - prec)
            /\ Zpos (digits2_pos m) = prec.
Proof.
  unfold SFone, binary_round. simpl digits2_pos.
  assert (Hfexp : fexp prec emax (1 + 0) = 1 - prec).
  { unfold fexp, emin. lia. }
  rewrite Hfexp. unfold shl_align.
  destruct (1 - prec - 0) as [|d|d] eqn:Hd; [|lia|].
  - exists 1%positive. simpl digits2_pos.
    split; [|lia].
    replace (1 - prec) with 0 by lia.
    apply binary_round_aux_canonical; [|lia].
    simpl digits2_pos. unfold fexp, emin. lia.
  - exists (Pos.iter xO 1%positive d).
    assert (Hdig : Zpos (digits2_pos (Pos.iter xO 1%positive d)) = prec).
    { rewrite digits2_shift. simpl digits2_pos. lia. }
    split; [|exact Hdig].
    apply binary_round_aux_canonical; [|lia].
    rewrite Hdig. unfold fexp, emin. lia.
Qed.

Lemma SFone_valid : valid_binary prec emax (SFone prec emax) = true.
Proof.
  destruct SFone_finite as (m & -> & Hdig). simpl.
  unfold bounded, canonical_mantissa. rewrite Hdig.
  apply andb_true_intro. split.
  - apply Z.eqb_eq. unfold fexp, emin. lia.
  - apply Z.leb_le. lia.
Qed.

Lemma SFone_sign : sign_or_nan false (SFone prec emax).
Proof. by destruct SFone_finite as (m & -> & _). Qed.

(** The scalar of [denoise_step] stays within [[0, max_guidance_weight]]. *)
Lemma guidance_weight_bounds (max_guidance_weight tau : spec_float) :
  valid_binary prec emax tau = true ->
  SFleb (S754_zero false) tau = true -> tau <> S754_zero true ->
  SFleb tau (SFone prec emax) = true ->
  SFleb (S754_zero false) max_guidance_weight = true ->
  SFleb (S754_zero false)
        (@RTC.guidance_weight _ (Float.arith prec emax) (Float.ieee prec emax)
           max_guidance_weight tau) = true
  /\ SFleb (@RTC.guidance_weight _ (Float.arith prec emax) (Float.ieee prec emax)
              max_guidance_weight tau)
           max_guidance_weight = true.
Proof.
  intros Hvalid Hlo Hnz Hhi Hmax.
  assert (Htau : sign_or_nan false tau).
  { apply at_least_zero_spec in Hlo as [_ Hlo].
    destruct tau as [s|s| |s m e]; simpl in *; try done. by destruct s. }
  unfold RTC.guidance_weight. simpl.
  set (one_minus_tau := SFsub prec emax (SFone prec emax) tau).
  assert (Hsub : sign_or_nan false one_minus_tau).
  { apply SFsub_sign; [done|apply SFone_valid|done|apply SFone_sign|done]. }
  set (sq := SFmul prec emax one_minus_tau one_minus_tau).
  assert (Hsq : sign_or_nan false sq) by (by apply (SFmul_sign _ _ false false)).
  set (inv_r2 := SFdiv prec emax (SFadd prec emax sq (SFmul prec emax tau tau)) sq).
  assert (Hinv : sign_or_nan false inv_r2).
  { apply (SFdiv_sign _ _ false false); [|done].
    apply SFadd_sign; [done|]. by apply (SFmul_sign _ _ false false). }
  set (c := Float.SFnan_to_num prec emax (SFdiv prec emax one_minus_tau tau)
              max_guidance_weight).
  assert (Hc : at_least_zero c).
  { apply nan_to_num_at_least_zero; [|done].
    apply sign_false_at_least_zero. by apply (SFdiv_sign _ _ false false). }
  apply minimum_bounds; [|done].
  apply nan_to_num_at_least_zero; [|done].
  by apply SFmul_at_least_zero.
Qed.
End FloatFacts.

(** [tau = 1 - time] is not the negative zero, for [time] in [[0, 1]]. *)
Lemma one_minus_time_not_negative_zero (prec emax : Z) (time : spec_float) :
  0 < prec -> prec < emax ->
  valid_binary prec emax time = true ->
  SFleb (S754_zero false) time = true -> SFleb time (SFone prec emax) = true ->
  SFsub prec emax (SFone prec emax) time <> S754_zero true.
Proof.
  intros Hprec Hemax Hvalid Hlo Hhi.
  pose proof (SFone_valid prec emax Hprec Hemax) as Hone_valid.
  pose proof (SFone_sign prec emax Hprec Hemax) as Hone_sign.
  destruct (SFone_finite prec emax Hprec Hemax) as (m1 & Hone & _).
  destruct time as [s|s| |s m e]; try done.
  - rewrite Hone. by destruct s.
  - rewrite Hone in Hhi. by destruct s.
  - destruct s; [done|].
    pose proof (SFsub_sign prec emax _ _ Hvalid Hone_valid eq_refl Hone_sign Hhi)
      as Hsign.
    intros Heq. by rewrite Heq in Hsign.
Qed.

(** C3. In every binary format ([0 < prec < emax]: float16, bfloat16,
    float32, float64, ...), for every [tau] of the format with
    [0 <= tau <= 1], both ends included, and [max_guidance_weight >= 0], the
    scalar [g] of [denoise_step] satisfies [0 <= g <= max_guidance_weight].
    ([tau = 1 - time] is never the negative zero.) *)
Theorem guidance_weight_within_bounds :
  forall (prec emax : Z) (max_guidance_weight tau : spec_float),
    0 < prec -> prec < emax ->
    valid_binary prec emax tau = true ->
    SFleb (S754_zero false) tau = true -> tau <> S754_zero true ->
    SFleb tau (SFone prec emax) = true ->
    SFleb (S754_zero false) max_guidance_weight = true ->
    SFleb (S754_zero false)
          (@RTC.guidance_weight _ (Float.arith prec emax) (Float.ieee prec emax)
             max_guidance_weight tau) = true
    /\ SFleb (@RTC.guidance_weight _ (Float.arith prec emax) (Float.ieee prec emax)
                max_guidance_weight tau)
             max_guidance_weight = true.
Proof.
  intros prec emax mx tau Hprec Hemax. by apply guidance_weight_bounds.
Qed.

(** In [float32] with [max_guidance_weight = 10], at [tau = 0], [tau = 0.5]
    and [tau = 1]. *)
Lemma guidance_weight_within_bounds_witness :
  Forall (fun tau =>
            SFleb (S754_zero false) (Run32.guidance_weight (Run32.z 10) tau) = true
            /\ SFleb (Run32.guidance_weight (Run32.z 10) tau) (Run32.z 10) = true)
         [Run32.z 0; Run32.half; Run32.z 1].
Proof.
  repeat (constructor;
          [apply (guidance_weight_within_bounds 24 128);
           [lia|lia|reflexivity|reflexivity|vm_compute; discriminate
           |reflexivity|reflexivity]|]).
  constructor.
Defined.

(** The hypothesis on the negative zero is needed: at [tau = -0.0] the
    quotient [(1 - tau) / tau] is negative infinity, which [nan_to_num]
    turns into the lowest finite value. *)
Example guidance_weight_negative_zero :
  Run32.guidance_weight (Run32.z 10) (S754_zero true)
  = SFopp (SFmax_float 24 128).
Proof. vm_compute. reflexivity. Qed.

(** C2. What the code computes at the ends, in [float32] and in [float64]
    with [max_guidance_weight = 10]: at [tau = 1] ([time = 0]) the product
    [c * inv_r2] is [0 * inf], a NaN, which [nan_to_num] replaces by [0.0]
    (only [posinf] is given), so [g = 0]; at [tau = 0] the quotient is
    [+inf] and [g = max_guidance_weight]. *)
Theorem guidance_weight_at_the_ends :
  let g32 := @RTC.guidance_weight _ Float.b32_arith Float.b32_ieee in
  let g64 := @RTC.guidance_weight _ Float.b64_arith Float.b64_ieee in
  SFmul 24 128
    (Float.SFnan_to_num 24 128
       (SFdiv 24 128 (SFsub 24 128 (SFone 24 128) (SFone 24 128)) (SFone 24 128))
       (Float.b32_of_Z 10))
    (SFdiv 24 128
       (SFadd 24 128
          (SFmul 24 128 (SFsub 24 128 (SFone 24 128) (SFone 24 128))
                        (SFsub 24 128 (SFone 24 128) (SFone 24 128)))
          (SFmul 24 128 (SFone 24 128) (SFone 24 128)))
       (SFmul 24 128 (SFsub 24 128 (SFone 24 128) (SFone 24 128))
                     (SFsub 24 128 (SFone 24 128) (SFone 24 128))))
  = S754_nan
  /\ g32 (Float.b32_of_Z 10) (SFone 24 128) = S754_zero false
  /\ g32 (Float.b32_of_Z 10) (SFone 24 128) <> Float.b32_of_Z 10
  /\ g32 (Float.b32_of_Z 10) (S754_zero false) = Float.b32_of_Z 10
  /\ g64 (Float.b64_of_Z 10) (SFone 53 1024) = S754_zero false
  /\ g64 (Float.b64_of_Z 10) (S754_zero false) = Float.b64_of_Z 10.
Proof.
  vm_compute. repeat split; discriminate.
Qed.

(* ===================================================================== *)
(** * Part III: further properties of the code                            *)
(* ===================================================================== *)

(** ** More on the policy server *)

Section ServerSessionFacts.
Context {R O P A : Type} `{Arith R}.
Variable environment_dt : R.
Variable observations_similar : TimedObservation.t R O -> TimedObservation.t R O -> bool.
Variable preprocess : TimedObservation.t R O -> option P.
Variable predict : P -> option (list A).

#[local] Abbreviation state := (@PolicyServer.state R O).
#[local] Abbreviation rpc := (@PolicyServer.rpc R O).
#[local] Abbreviation run :=
  (PolicyServer.run (A:=A) environment_dt observations_similar preprocess predict).
#[local] Abbreviation step :=
  (PolicyServer.step (A:=A) environment_dt observations_similar preprocess predict).
#[local] Abbreviation enqueue := (PolicyServer._enqueue_observation observations_similar).
#[local] Abbreviation get_actions :=
  (PolicyServer.GetActions (A:=A) environment_dt preprocess predict).
Implicit Types (self : state) (obs : TimedObservation.t R O) (calls : list rpc).

Lemma run_cons self (c : rpc) calls :
  run self (c :: calls)
  = (fst (run (fst (step self c)) calls),
     from_option (fun x => [x]) [] (snd (step self c)) ++ snd (run (fst (step self c)) calls)).
Proof.
  simpl. destruct (PolicyServer.step _ _ _ _ self c) as [s1 o].
  simpl. by destruct (PolicyServer.run _ _ _ _ s1 calls).
Qed.

Lemma enqueue_queue_bounded self obs :
  (length (PolicyServer.observation_queue self) <= PolicyServer.maxsize)%nat ->
  (length (PolicyServer.observation_queue (fst (enqueue self obs)))
   <= PolicyServer.maxsize)%nat.
Proof.
  unfold PolicyServer.maxsize. intros Hlen.
  destruct (snd (enqueue self obs)) eqn:Hacc.
  - rewrite (enqueue_accepted observations_similar) by done. simpl.
    unfold PolicyServer.full, PolicyServer.maxsize.
    destruct (PolicyServer.observation_queue self) as [|o [|o' q]]; simpl in *; lia.
  - by rewrite (enqueue_rejected observations_similar).
Qed.

Lemma step_queue_bounded self (c : rpc) :
  (length (PolicyServer.observation_queue self) <= PolicyServer.maxsize)%nat ->
  (length (PolicyServer.observation_queue (fst (step self c)))
   <= PolicyServer.maxsize)%nat.
Proof.
  intros Hlen. destruct c as [obs|]; simpl.
  - by apply enqueue_queue_bounded.
  - pose proof (get_actions_queue environment_dt preprocess predict self) as Hq.
    destruct (PolicyServer.GetActions _ _ _ self) as [s1 r]. simpl in *.
    rewrite Hq. destruct (PolicyServer.observation_queue self); simpl in *; lia.
Qed.

Lemma run_queue_bounded calls : forall self,
  (length (PolicyServer.observation_queue self) <= PolicyServer.maxsize)%nat ->
  (length (PolicyServer.observation_queue (fst (run self calls)))
   <= PolicyServer.maxsize)%nat.
Proof.
  induction calls as [|c calls IH]; intros self Hlen; [done|].
  rewrite run_cons. simpl. apply IH. by apply step_queue_bounded.
Qed.

Lemma step_predicted self (c : rpc) :
  PolicyServer._predicted_timesteps (fst (step self c))
  = PolicyServer._predicted_timesteps self
    ∪ list_to_set (map TimedObservation.timestep
                       (from_option (fun x => [x]) [] (snd (step self c)))).
Proof.
  destruct c as [obs|]; simpl.
  - unfold PolicyServer.SendObservations.
    destruct (snd (enqueue self obs)) eqn:Hacc.
    + rewrite (enqueue_accepted observations_similar) by done. simpl.
      by rewrite union_empty_r_L.
    + rewrite (enqueue_rejected observations_similar) by done.
      by rewrite union_empty_r_L.
  - pose proof (get_actions_inferred environment_dt preprocess predict self)
      as [Hinf Hpred].
    destruct (PolicyServer.GetActions _ _ _ self) as [s1 r]. simpl in *.
    rewrite Hpred, Hinf.
    destruct (head (PolicyServer.observation_queue self)); simpl.
    + rewrite union_empty_r_L. apply union_comm_L.
    + by rewrite union_empty_r_L.
Qed.

Lemma run_predicted calls : forall self,
  PolicyServer._predicted_timesteps (fst (run self calls))
  = PolicyServer._predicted_timesteps self
    ∪ list_to_set (map TimedObservation.timestep (snd (run self calls))).
Proof.
  induction calls as [|c calls IH]; intros self.
  - simpl. by rewrite union_empty_r_L.
  - rewrite run_cons. simpl. rewrite IH, step_predicted.
    rewrite map_app, list_to_set_app_L. by rewrite union_assoc_L.
Qed.
Lemma accepted_is_inferred self obs :
  (length (PolicyServer.observation_queue self) <= PolicyServer.maxsize)%nat ->
  snd (enqueue self obs) = true ->
  PolicyServer.inferred (snd (get_actions (fst (enqueue self obs)))) = Some obs.
Proof.
  intros Hlen Hacc.
  destruct (get_actions_inferred environment_dt preprocess predict
              (fst (enqueue self obs))) as [-> _].
  rewrite (enqueue_accepted observations_similar) by done. simpl.
  unfold PolicyServer.full, PolicyServer.maxsize in *.
  destruct (PolicyServer.observation_queue self) as [|o [|o' q]];
    simpl in *; [done|done|lia].
Qed.
End ServerSessionFacts.

(** X1. Whatever is sent, forced or not, the server's observation queue
    never holds more than [maxsize = 1] observation during a session. *)
Theorem observation_queue_within_capacity :
  forall (R O P A : Type) (HA : Arith R) (environment_dt : R)
         (observations_similar : TimedObservation.t R O -> TimedObservation.t R O -> bool)
         (preprocess : TimedObservation.t R O -> option P)
         (predict : P -> option (list A))
         (before : @PolicyServer.state R O) (calls : list (@PolicyServer.rpc R O)),
    (length (PolicyServer.observation_queue
               (fst (PolicyServer.run environment_dt observations_similar preprocess
                       predict (PolicyServer.Ready before) calls)))
     <= PolicyServer.maxsize)%nat.
Proof.
  intros. apply run_queue_bounded. simpl. unfold PolicyServer.maxsize. lia.
Qed.

(** X2. During a session the set of predicted timesteps is exactly the set
    of timesteps of the observations handed to [_predict_action_chunk],
    whether their inference returned or raised. *)
Theorem predicted_timesteps_are_the_inferred_ones :
  forall (R O P A : Type) (HA : Arith R) (environment_dt : R)
         (observations_similar : TimedObservation.t R O -> TimedObservation.t R O -> bool)
         (preprocess : TimedObservation.t R O -> option P)
         (predict : P -> option (list A))
         (before : @PolicyServer.state R O) (calls : list (@PolicyServer.rpc R O)),
    PolicyServer._predicted_timesteps
      (fst (PolicyServer.run environment_dt observations_similar preprocess
              predict (PolicyServer.Ready before) calls))
    = list_to_set
        (map TimedObservation.timestep
           (snd (PolicyServer.run environment_dt observations_similar preprocess
                   predict (PolicyServer.Ready before) calls))).
Proof.
  intros. rewrite run_predicted. simpl. by rewrite union_empty_l_L.
Qed.

(** X3. An accepted observation replaces whatever was queued: the next
    [GetActions] of the session runs inference on it. *)
Theorem accepted_observation_is_inferred_next :
  forall (R O P A : Type) (HA : Arith R) (environment_dt : R)
         (observations_similar : TimedObservation.t R O -> TimedObservation.t R O -> bool)
         (preprocess : TimedObservation.t R O -> option P)
         (predict : P -> option (list A))
         (before : @PolicyServer.state R O) (calls : list (@PolicyServer.rpc R O))
         (obs : TimedObservation.t R O),
    snd (PolicyServer._enqueue_observation observations_similar
           (fst (PolicyServer.run environment_dt observations_similar preprocess
                   predict (PolicyServer.Ready before) calls)) obs) = true ->
    PolicyServer.inferred
      (snd (PolicyServer.GetActions environment_dt preprocess predict
              (fst (PolicyServer._enqueue_observation observations_similar
                      (fst (PolicyServer.run environment_dt observations_similar
                              preprocess predict (PolicyServer.Ready before) calls))
                      obs))))
    = Some obs.
Proof.
  intros R O P A HA dt sim pre pred before calls obs Hacc.
  apply accepted_is_inferred; [|done].
  apply run_queue_bounded. simpl. unfold PolicyServer.maxsize. lia.
Qed.

Lemma accepted_observation_is_inferred_next_witness :
  PolicyServer.inferred
    (snd (PolicyServer.GetActions Demo.environment_dt Demo.preprocess Demo.predict
            (fst (Demo.enqueue
                    (fst (Demo.server_run (PolicyServer.Ready PolicyServer.init)
                            [PolicyServer.CallSendObservations (Demo.obs 0 7 false)]))
                    (Demo.obs 3 9 true)))))
  = Some (Demo.obs 3 9 true).
Proof.
  apply (accepted_observation_is_inferred_next Q Z Z Z Q_Arith Demo.environment_dt
           Demo.similar Demo.preprocess Demo.predict PolicyServer.init
           [PolicyServer.CallSendObservations (Demo.obs 0 7 false)]
           (Demo.obs 3 9 true)).
  reflexivity.
Defined.

(** X4. [Ready] empties the queue and the predicted timesteps but keeps
    [last_processed_obs]: the first observation of a new session is accepted
    when it is forced, when nothing was ever processed, or when it is not
    similar to the last observation processed in the session before, whatever
    its timestep. *)
Theorem ready_keeps_last_processed_obs :
  forall (R O : Type)
         (observations_similar : TimedObservation.t R O -> TimedObservation.t R O -> bool)
         (before : @PolicyServer.state R O) (obs : TimedObservation.t R O),
    PolicyServer.observation_queue (PolicyServer.Ready before) = []
    /\ PolicyServer._predicted_timesteps (PolicyServer.Ready before) = ∅
    /\ PolicyServer.last_processed_obs (PolicyServer.Ready before)
       = PolicyServer.last_processed_obs before
    /\ snd (PolicyServer._enqueue_observation observations_similar
              (PolicyServer.Ready before) obs)
       = TimedObservation.must_go obs
         || match PolicyServer.last_processed_obs before with
            | None => true
            | Some previous_obs => negb (observations_similar obs previous_obs)
            end.
Proof.
  intros R O sim before obs. repeat split.
  unfold PolicyServer._enqueue_observation, PolicyServer._obs_sanity_checks. simpl.
  destruct (TimedObservation.must_go obs); simpl; [done|].
  destruct (PolicyServer.last_processed_obs before) as [prev|]; simpl; [|done].
  rewrite bool_decide_eq_false_2 by apply not_elem_of_empty.
  by destruct (sim obs prev).
Qed.

(** X5. [GetActions] marks the timestep as predicted before it runs
    inference. Once the preprocessor has returned for an observation, a later
    observation of the same timestep that is not forced is rejected, also
    when the inference itself raised: a failed inference is not retried. *)
Theorem inferred_timestep_is_not_retried :
  forall (R O P A : Type) (HA : Arith R) (environment_dt : R)
         (observations_similar : TimedObservation.t R O -> TimedObservation.t R O -> bool)
         (preprocess : TimedObservation.t R O -> option P)
         (predict : P -> option (list A))
         (self : @PolicyServer.state R O) (obs later : TimedObservation.t R O),
    head (PolicyServer.observation_queue self) = Some obs ->
    is_Some (preprocess obs) ->
    TimedObservation.timestep later = TimedObservation.timestep obs ->
    TimedObservation.must_go later = false ->
    snd (PolicyServer._enqueue_observation observations_similar
           (fst (PolicyServer.GetActions environment_dt preprocess predict self))
           later) = false.
Proof.
  intros R O P A HA dt sim pre pred self obs later Hhead [x Hx] Hts Hgo.
  unfold PolicyServer.GetActions, PolicyServer._predict_action_chunk.
  destruct (PolicyServer.observation_queue self) as [|o q]; [done|].
  injection Hhead as ->. rewrite Hx.
  unfold PolicyServer._enqueue_observation, PolicyServer._obs_sanity_checks.
  destruct (pred x); simpl; rewrite Hgo; simpl;
    rewrite bool_decide_eq_true_2; try done;
    rewrite Hts; by apply elem_of_union_l, elem_of_singleton.
Qed.

(** The policy of this run raises; the observation of timestep [0] is not
    inferred a second time. *)
Lemma inferred_timestep_is_not_retried_witness :
  snd (Demo.enqueue
         (fst (PolicyServer.GetActions Demo.environment_dt Demo.preprocess
                 (fun _ : Z => @None (list Z))
                 (fst (Demo.enqueue PolicyServer.init (Demo.obs 0 7 false)))))
         (Demo.obs 0 8 false)) = false.
Proof.
  apply (inferred_timestep_is_not_retried Q Z Z Z Q_Arith Demo.environment_dt
           Demo.similar Demo.preprocess (fun _ : Z => @None (list Z))
           (fst (Demo.enqueue PolicyServer.init (Demo.obs 0 7 false)))
           (Demo.obs 0 7 false) (Demo.obs 0 8 false)).
  - reflexivity.
  - by eexists.
  - reflexivity.
  - reflexivity.
Defined.

(** ** More on the time stamps and the client's merge *)

Section StampFacts.
Context {R A : Type} `{Arith R}.
Variable environment_dt : R.

Lemma time_action_chunk_timesteps (t_0 : R) (action_chunk : list A) (i_0 : Z) :
  map TimedAction.timestep
      (PolicyServer._time_action_chunk environment_dt t_0 action_chunk i_0)
  = seqZ i_0 (Z.of_nat (length action_chunk)).
Proof.
  unfold PolicyServer._time_action_chunk. rewrite time_from_imap.
  apply list_eq. intros k.
  change (map ?f ?l) with (f <$> l).
  rewrite list_lookup_fmap, list_lookup_imap.
  destruct (action_chunk !! k) as [a|] eqn:Hk; simpl.
  - apply lookup_lt_Some in Hk.
    rewrite lookup_seqZ_lt by lia. f_equal; lia.
  - apply lookup_ge_None in Hk. by rewrite lookup_seqZ_ge by lia.
Qed.

Lemma time_action_chunk_timestamps (t_0 : R) (action_chunk : list A) (i_0 : Z) :
  map TimedAction.timestamp
      (PolicyServer._time_action_chunk environment_dt t_0 action_chunk i_0)
  = TestScript.timestamp t_0 environment_dt (Z.of_nat (length action_chunk)).
Proof.
  unfold PolicyServer._time_action_chunk, TestScript.timestamp, TestScript.time_delta.
  rewrite time_from_imap.
  apply list_eq. intros k.
  change (map ?f ?l) with (f <$> l).
  rewrite !list_lookup_fmap, list_lookup_imap.
  destruct (action_chunk !! k) as [a|] eqn:Hk; simpl.
  - apply lookup_lt_Some in Hk.
    rewrite lookup_seqZ_lt by lia. simpl. by rewrite Z.add_0_l.
  - apply lookup_ge_None in Hk. by rewrite lookup_seqZ_ge by lia.
Qed.
End StampFacts.

(** X6. The arrays of [test.py] are the stamps of the server: for a chunk of
    [chunk_size] actions, the timesteps of [_time_action_chunk] are
    [timestep_arange] and its time stamps are [timestamp], computed by the
    same floating-point operations. *)
Theorem test_arrays_are_the_server_stamps :
  forall (R A : Type) (HA : Arith R) (environment_dt t_0 : R)
         (action_chunk : list A) (i_0 : Z),
    map TimedAction.timestep
        (PolicyServer._time_action_chunk environment_dt t_0 action_chunk i_0)
    = TestScript.timestep_arange i_0 (Z.of_nat (length action_chunk))
    /\ map TimedAction.timestamp
           (PolicyServer._time_action_chunk environment_dt t_0 action_chunk i_0)
       = TestScript.timestamp t_0 environment_dt (Z.of_nat (length action_chunk)).
Proof.
  intros. split.
  - apply time_action_chunk_timesteps.
  - apply time_action_chunk_timestamps.
Qed.

Section MergeFacts.
Context {R A : Type}.
Implicit Types (self : @RobotClient.state R A) (incoming : list (TimedAction.t R A)).

Lemma omap_aggregate_one_timesteps (fn : A -> A -> A) (current : gmap Z A)
    (latest : Z) incoming :
  map TimedAction.timestep (omap (RobotClient.aggregate_one fn current latest) incoming)
  = filter (fun ts => latest < ts) (map TimedAction.timestep incoming).
Proof.
  induction incoming as [|new l IH]; [done|].
  cbn [omap list_omap map]. unfold RobotClient.aggregate_one at 1.
  destruct (Z.leb_spec (TimedAction.timestep new) latest).
  - rewrite filter_cons_False by lia. exact IH.
  - rewrite filter_cons_True by lia.
    destruct (current !! TimedAction.timestep new); cbn [map TimedAction.timestep];
      by rewrite IH.
Qed.

Lemma merged_timesteps self incoming (fn : option (A -> A -> A)) :
  RobotClient.timesteps
    (RobotClient.action_queue (RobotClient._aggregate_action_queues self incoming fn))
  = filter (fun ts => RobotClient.latest_action self < ts)
           (RobotClient.timesteps incoming).
Proof. apply omap_aggregate_one_timesteps. Qed.

Lemma merged_latest_action self incoming (fn : option (A -> A -> A)) :
  RobotClient.latest_action (RobotClient._aggregate_action_queues self incoming fn)
  = RobotClient.latest_action self.
Proof. done. Qed.

Lemma merged_default self incoming :
  RobotClient.action_queue (RobotClient._aggregate_action_queues self incoming None)
  = filter (fun new => RobotClient.latest_action self < TimedAction.timestep new)
           incoming.
Proof.
  unfold RobotClient._aggregate_action_queues. cbn [RobotClient.action_queue default].
  generalize (RobotClient.current_action_queue (RobotClient.action_queue self)) as current.
  generalize (RobotClient.latest_action self) as latest.
  intros latest current.
  induction incoming as [|new l IH]; [done|].
  cbn [omap list_omap]. unfold RobotClient.aggregate_one at 1.
  destruct (Z.leb_spec (TimedAction.timestep new) latest).
  - rewrite filter_cons_False by lia. exact IH.
  - rewrite filter_cons_True by lia.
    destruct (current !! TimedAction.timestep new); rewrite IH; by destruct new.
Qed.

Lemma filter_seqZ_above (latest i_0 n : Z) :
  filter (fun ts => latest < ts) (seqZ i_0 n)
  = seqZ (Z.max i_0 (latest + 1)) (i_0 + n - Z.max i_0 (latest + 1)).
Proof.
  destruct (Z_le_gt_dec n 0) as [Hn|Hn].
  { rewrite !seqZ_nil by lia. done. }
  rewrite <- (Z2Nat.id n) by lia.
  generalize (Z.to_nat n) as k. clear n Hn. intros k. revert i_0.
  induction k as [|k IH]; intros i_0.
  { rewrite !seqZ_nil by lia. done. }
  rewrite Nat2Z.inj_succ.
  rewrite seqZ_cons by lia.
  replace (Z.pred (Z.succ (Z.of_nat k))) with (Z.of_nat k) by lia.
  destruct (Z_lt_dec latest i_0) as [Hlt|Hge].
  - rewrite filter_cons_True by done. rewrite IH.
    replace (Z.max i_0 (latest + 1)) with i_0 by lia.
    replace (Z.max (Z.succ i_0) (latest + 1)) with (Z.succ i_0) by lia.
    rewrite (seqZ_cons i_0) by lia. f_equal. f_equal. lia.
  - rewrite filter_cons_False by done. rewrite IH.
    f_equal; lia.
Qed.
End MergeFacts.

Lemma time_from_filter_all {R A : Type} `{Arith R} (environment_dt t_0 : R)
    (latest i_0 i : Z) (action_chunk : list A) :
  latest < i_0 + i ->
  filter (fun new : TimedAction.t R A => latest < TimedAction.timestep new)
         (PolicyServer.time_from environment_dt t_0 i_0 i action_chunk)
  = PolicyServer.time_from environment_dt t_0 i_0 i action_chunk.
Proof.
  revert i. induction action_chunk as [|a l IH]; intros i Hlt; [done|].
  cbn [PolicyServer.time_from].
  rewrite filter_cons_True by (simpl; lia).
  f_equal. apply IH. lia.
Qed.

Lemma time_from_filter_drop {R A : Type} `{Arith R} (environment_dt t_0 : R)
    (latest i_0 i : Z) (action_chunk : list A) :
  filter (fun new : TimedAction.t R A => latest < TimedAction.timestep new)
         (PolicyServer.time_from environment_dt t_0 i_0 i action_chunk)
  = drop (Z.to_nat (latest + 1 - (i_0 + i)))
         (PolicyServer.time_from environment_dt t_0 i_0 i action_chunk).
Proof.
  revert i. induction action_chunk as [|a l IH]; intros i.
  - cbn [PolicyServer.time_from]. by rewrite drop_nil.
  - destruct (Z_lt_dec latest (i_0 + i)) as [Hlt|Hge].
    + rewrite time_from_filter_all by done.
      by replace (Z.to_nat (latest + 1 - (i_0 + i))) with 0%nat by lia.
    + cbn [PolicyServer.time_from].
      rewrite filter_cons_False by (simpl; lia).
      rewrite IH.
      replace (Z.to_nat (latest + 1 - (i_0 + i)))
        with (S (Z.to_nat (latest + 1 - (i_0 + (i + 1))))) by lia.
      done.
Qed.

(** X7. The client merges a chunk as the server stamps it: the new queue
    holds the consecutive timesteps from [max i_0 (latest_action + 1)] to
    [i_0 + n - 1], in this order, whatever was queued before and whatever
    the aggregate function; with the default aggregate function it is the
    server's chunk without its first [latest_action + 1 - i_0] actions. *)
Theorem merged_server_chunk_is_consecutive :
  forall (R A : Type) (HA : Arith R) (environment_dt t_0 : R)
         (action_chunk : list A) (i_0 : Z)
         (self : @RobotClient.state R A) (aggregate_fn : option (A -> A -> A)),
    let chunk := PolicyServer._time_action_chunk environment_dt t_0 action_chunk i_0 in
    let first := Z.max i_0 (RobotClient.latest_action self + 1) in
    RobotClient.timesteps
      (RobotClient.action_queue
         (RobotClient._aggregate_action_queues self chunk aggregate_fn))
    = seqZ first (i_0 + Z.of_nat (length action_chunk) - first)
    /\ RobotClient.action_queue (RobotClient._aggregate_action_queues self chunk None)
       = drop (Z.to_nat (RobotClient.latest_action self + 1 - i_0)) chunk.
Proof.
  intros R A HA dt t_0 action_chunk i_0 self fn chunk first. split.
  - rewrite merged_timesteps. unfold RobotClient.timesteps, chunk.
    rewrite time_action_chunk_timesteps. apply filter_seqZ_above.
  - rewrite merged_default. unfold chunk, PolicyServer._time_action_chunk.
    rewrite time_from_filter_drop. by rewrite Z.add_0_r.
Qed.

(** ** The client's control loop *)

Section ControlLoopFacts.
Context {R O A : Type} `{Arith R} `{Order R}.
Variable aggregate_fn : option (A -> A -> A).
Variable _chunk_size_threshold : R.
Variable with_task : O -> O.

#[local] Abbreviation cstate := (@ControlLoop.state R A).
#[local] Abbreviation cevent := (@ControlLoop.event R O A).
#[local] Abbreviation crun :=
  (ControlLoop.run aggregate_fn _chunk_size_threshold with_task).
#[local] Abbreviation cturn :=
  (ControlLoop.control_loop_turn _chunk_size_threshold with_task).
#[local] Abbreviation creceive := (ControlLoop.receive_actions (R:=R) aggregate_fn).
Implicit Types (self : cstate) (events : list cevent).

Lemma StronglySorted_filter_above (latest : Z) (l : list Z) :
  StronglySorted Z.lt l ->
  StronglySorted Z.lt (latest :: filter (fun ts => latest < ts) l).
Proof.
  intros Hl. constructor.
  - induction Hl as [|x l Hl IH Hx]; [constructor|].
    destruct (Z_lt_dec latest x).
    + rewrite filter_cons_True by done. constructor; [done|].
      apply Forall_forall. intros y Hy.
      apply list_elem_of_filter in Hy as [_ Hy].
      rewrite Forall_forall in Hx. by apply Hx.
    + by rewrite filter_cons_False by done.
  - apply Forall_forall. intros y Hy.
    by apply list_elem_of_filter in Hy as [? _].
Qed.

Lemma receive_ordered self (timed_actions : list (TimedAction.t R A)) :
  StronglySorted Z.lt (RobotClient.timesteps timed_actions) ->
  ControlLoop.queue_ordered (creceive self timed_actions).
Proof.
  intros Hs. unfold ControlLoop.queue_ordered, ControlLoop.receive_actions.
  cbn [ControlLoop.core]. rewrite merged_timesteps, merged_latest_action.
  by apply StronglySorted_filter_above.
Qed.

Lemma turn_cases self (raw_observation : O) (now : R) :
  cturn self raw_observation now
  = match RobotClient.action_queue (ControlLoop.core self) with
    | [] =>
        match ControlLoop._ready_to_send_observation _chunk_size_threshold self with
        | ControlLoop.Raises e => ControlLoop.Raises e
        | ControlLoop.Returns true =>
            ControlLoop.Returns
              (fst (ControlLoop.control_loop_observation with_task self raw_observation now),
               ControlLoop.mkTurn None
                 (Some (snd (ControlLoop.control_loop_observation with_task self
                               raw_observation now))))
        | ControlLoop.Returns false =>
            ControlLoop.Returns (self, ControlLoop.mkTurn None None)
        end
    | timed_action :: rest =>
        let self' :=
          ControlLoop.mk (RobotClient.mk rest (TimedAction.timestep timed_action))
            (ControlLoop.must_go self) (ControlLoop.action_chunk_size self) in
        match ControlLoop._ready_to_send_observation _chunk_size_threshold self' with
        | ControlLoop.Raises e => ControlLoop.Raises e
        | ControlLoop.Returns true =>
            ControlLoop.Returns
              (fst (ControlLoop.control_loop_observation with_task self' raw_observation now),
               ControlLoop.mkTurn (Some timed_action)
                 (Some (snd (ControlLoop.control_loop_observation with_task self'
                               raw_observation now))))
        | ControlLoop.Returns false =>
            ControlLoop.Returns (self', ControlLoop.mkTurn (Some timed_action) None)
        end
    end.
Proof.
  unfold ControlLoop.control_loop_turn, ControlLoop.actions_available,
    ControlLoop.control_loop_action.
  destruct (RobotClient.action_queue (ControlLoop.core self)) as [|a rest].
  - by destruct (ControlLoop._ready_to_send_observation _ self) as [[|]|e].
  - cbv zeta.
    by destruct (ControlLoop._ready_to_send_observation _ _) as [[|]|e].
Qed.
End ControlLoopFacts.

Section ControlLoopRuns.
Context {R O A : Type} `{Arith R} `{Order R}.
Variable aggregate_fn : option (A -> A -> A).
Variable _chunk_size_threshold : R.
Variable with_task : O -> O.

#[local] Abbreviation cstate := (@ControlLoop.state R A).
#[local] Abbreviation cevent := (@ControlLoop.event R O A).
#[local] Abbreviation crun :=
  (ControlLoop.run aggregate_fn _chunk_size_threshold with_task).
#[local] Abbreviation cturn :=
  (ControlLoop.control_loop_turn _chunk_size_threshold with_task).
#[local] Abbreviation creceive := (ControlLoop.receive_actions (R:=R) aggregate_fn).
Implicit Types (self : cstate) (events : list cevent).

(** What a turn that returns has done. *)
Lemma turn_returns self (raw_observation : O) (now : R) self' (t : ControlLoop.turn) :
  cturn self raw_observation now = ControlLoop.Returns (self', t) ->
  ControlLoop.action_chunk_size self' = ControlLoop.action_chunk_size self
  /\ match RobotClient.action_queue (ControlLoop.core self) with
     | [] => ControlLoop.core self' = ControlLoop.core self
             /\ ControlLoop.performed t = None
     | timed_action :: rest =>
         ControlLoop.core self'
         = RobotClient.mk rest (TimedAction.timestep timed_action)
         /\ ControlLoop.performed t = Some timed_action
     end
  /\ match ControlLoop.sent t with
     | None => ControlLoop.must_go self' = ControlLoop.must_go self
     | Some observation =>
         (TimedObservation.must_go observation = true ->
          ControlLoop.must_go self = true
          /\ RobotClient.action_queue (ControlLoop.core self') = [])
         /\ ControlLoop.must_go self'
            = ControlLoop.must_go self && negb (TimedObservation.must_go observation)
         /\ TimedObservation.timestep observation
            = Z.max (RobotClient.latest_action (ControlLoop.core self')) 0
     end.
Proof.
  rewrite turn_cases.
  destruct (RobotClient.action_queue (ControlLoop.core self)) as [|a rest] eqn:Hq;
    cbv zeta;
    destruct (ControlLoop._ready_to_send_observation _ _) as [[|]|e];
    try discriminate; intros [= <- <-];
    unfold ControlLoop.control_loop_observation; cbn; rewrite ?Hq; try done.
  - split; [done|]. split; [done|].
    destruct (ControlLoop.must_go self); cbn; done.
  - split; [done|]. split; [done|].
    destruct (ControlLoop.must_go self), rest; cbn; try done.
    all: split; [intros; try done|done].
Qed.

Lemma run_reply self (timed_actions : list (TimedAction.t R A)) events :
  crun self (ControlLoop.Reply timed_actions :: events)
  = crun (creceive self timed_actions) events.
Proof. done. Qed.

Lemma performed_ordered events : forall self,
  ControlLoop.queue_ordered self ->
  Forall (fun timed_actions => StronglySorted Z.lt (RobotClient.timesteps timed_actions))
         (ControlLoop.replies events) ->
  StronglySorted Z.lt
    (RobotClient.latest_action (ControlLoop.core self)
     :: RobotClient.timesteps (ControlLoop.performed_actions (crun self events))).
Proof.
  induction events as [|[timed_actions|raw_observation now] events IH];
    intros self Hself Hreplies.
  - cbn. constructor; constructor.
  - rewrite run_reply. cbn [ControlLoop.replies omap list_omap] in Hreplies.
    apply Forall_cons in Hreplies as [Hsorted Hreplies].
    specialize (IH (creceive self timed_actions)
                   (receive_ordered aggregate_fn self timed_actions Hsorted) Hreplies).
    exact IH.
  - cbn [ControlLoop.run ControlLoop.replies omap list_omap] in *.
    destruct (ControlLoop.control_loop_turn _ _ self raw_observation now)
      as [[self' t]|e] eqn:Hturn.
    2:{ cbn. constructor; constructor. }
    apply turn_returns in Hturn as (_ & Hcore & _).
    cbn [ControlLoop.performed_actions].
    unfold ControlLoop.queue_ordered in Hself.
    destruct (RobotClient.action_queue (ControlLoop.core self)) as [|a rest] eqn:Hq.
    + destruct Hcore as [Hcore ->]. cbn [from_option app].
      rewrite <- Hcore. apply IH; [|done].
      unfold ControlLoop.queue_ordered. by rewrite Hcore, Hq.
    + destruct Hcore as [Hcore ->]. cbn [from_option app].
      unfold RobotClient.timesteps in *. cbn [map] in *.
      apply StronglySorted_inv in Hself as [Hrest Hlatest].
      assert (Hself' : ControlLoop.queue_ordered self').
      { unfold ControlLoop.queue_ordered. by rewrite Hcore. }
      specialize (IH self' Hself' Hreplies). rewrite Hcore in IH. cbn in IH.
      constructor; [exact IH|].
      apply Forall_cons in Hlatest as [Hlt _].
      constructor; [done|].
      apply StronglySorted_inv in IH as [_ Hall].
      eapply Forall_impl; [exact Hall|]. cbn. intros; lia.
Qed.

Lemma forced_bounded events : forall self,
  (length (filter (fun o => TimedObservation.must_go o = true)
                  (ControlLoop.sent_observations (crun self events)))
   <= (if ControlLoop.must_go self then 1 else 0)
      + length (ControlLoop.replies events))%nat.
Proof.
  unfold ControlLoop.replies.
  induction events as [|[timed_actions|raw_observation now] events IH]; intros self.
  - cbn. lia.
  - rewrite run_reply. cbn [omap list_omap length].
    specialize (IH (creceive self timed_actions)).
    cbn [ControlLoop.receive_actions ControlLoop.must_go] in IH.
    destruct (ControlLoop.must_go self); lia.
  - cbn [ControlLoop.run omap list_omap].
    destruct (ControlLoop.control_loop_turn _ _ self raw_observation now)
      as [[self' t]|e] eqn:Hturn.
    2:{ cbn [ControlLoop.sent_observations filter list_filter length]. lia. }
    apply turn_returns in Hturn as (_ & _ & Hsent).
    cbn [ControlLoop.sent_observations]. specialize (IH self').
    destruct (ControlLoop.sent t) as [observation|]; cbn [from_option app].
    + destruct Hsent as (Hforced & Hgo & _).
      destruct (TimedObservation.must_go observation) eqn:Hmg.
      * rewrite filter_cons_True by done. cbn [length].
        destruct Hforced as [Hself _]; [done|].
        rewrite Hself in *. cbn in Hgo. rewrite Hgo in IH. lia.
      * rewrite filter_cons_False by (rewrite Hmg; done).
        rewrite andb_true_r in Hgo. by rewrite Hgo in IH.
    + by rewrite Hsent in IH.
Qed.


(** Turns alone leave [action_chunk_size] as it is. *)
Lemma turns_keep_chunk_size (turns : list (O * R)) : forall self,
  ControlLoop.action_chunk_size self <> 0 ->
  forall events,
    exists self',
      ControlLoop.action_chunk_size self' = ControlLoop.action_chunk_size self
      /\ ControlLoop.raised
           (crun self (map (fun t => ControlLoop.Turn t.1 t.2) turns ++ events))
         = ControlLoop.raised (crun self' events).
Proof.
  induction turns as [|[raw_observation now] turns IH]; intros self Hsize events.
  - by exists self.
  - cbn [map app ControlLoop.run fst snd].
    destruct (ControlLoop.control_loop_turn _ _ self raw_observation now)
      as [[self' t]|e] eqn:Hturn.
    + apply turn_returns in Hturn as (Hsame & _).
      cbn [ControlLoop.raised].
      destruct (IH self' ltac:(by rewrite Hsame) events) as (self'' & Hsize'' & Hrun).
      exists self''. split; [congruence|done].
    + exfalso. rewrite turn_cases in Hturn.
      unfold ControlLoop._ready_to_send_observation in Hturn.
      destruct (RobotClient.action_queue (ControlLoop.core self)); cbn in Hturn;
        destruct (Z.eqb_spec (ControlLoop.action_chunk_size self) 0); try done;
        by destruct (fle _ _).
Qed.

Lemma empty_reply_raises self (raw_observation : O) (now : R) events :
  ControlLoop.action_chunk_size self <= 0 ->
  ControlLoop.raised
    (crun self (ControlLoop.Reply [] :: ControlLoop.Turn raw_observation now :: events))
  = Some ControlLoop.ZeroDivisionError.
Proof.
  intros Hsize. rewrite run_reply. cbn [ControlLoop.run].
  rewrite turn_cases. cbn.
  unfold ControlLoop._ready_to_send_observation. cbn.
  change (Z.of_nat 0) with 0.
  by replace (Z.max (ControlLoop.action_chunk_size self) 0) with 0 by lia.
Qed.
End ControlLoopRuns.

(** X8. The robot never goes back in time: when every reply lists its
    actions by increasing timestep, as the server's chunks do, the actions a
    fresh client performs have strictly increasing timesteps, all of them at
    least [0], however replies and turns of the control loop interleave. No
    timestep is performed twice. *)
Theorem performed_timesteps_increase :
  forall (R O A : Type) (HA : Arith R) (HO : Order R)
         (aggregate_fn : option (A -> A -> A)) (_chunk_size_threshold : R)
         (with_task : O -> O) (events : list (@ControlLoop.event R O A)),
    Forall (fun timed_actions =>
              StronglySorted Z.lt (RobotClient.timesteps timed_actions))
           (ControlLoop.replies events) ->
    StronglySorted Z.lt
      (-1 :: RobotClient.timesteps
               (ControlLoop.performed_actions
                  (ControlLoop.run aggregate_fn _chunk_size_threshold with_task
                     ControlLoop.init events))).
Proof.
  intros R O A HA HO fn threshold with_task events Hreplies.
  apply (performed_ordered fn threshold with_task events ControlLoop.init);
    [|done].
  unfold ControlLoop.queue_ordered. cbn. constructor; constructor.
Qed.

(** Two chunks that overlap on the timesteps [1] and [2]: the robot performs
    the timesteps [0, 1, 2, 3]. *)
Lemma performed_timesteps_increase_witness :
  StronglySorted Z.lt
    (-1 :: RobotClient.timesteps
             (ControlLoop.performed_actions
                (ControlLoop.run (R:=Q) (O:=Z) (A:=Z) None (1 # 2)%Q (fun o => o)
                   ControlLoop.init
                   [ControlLoop.Reply [Demo.act 0 0 10; Demo.act 0 1 11; Demo.act 0 2 12];
                    ControlLoop.Turn 7 0%Q;
                    ControlLoop.Reply [Demo.act 0 1 21; Demo.act 0 2 22; Demo.act 0 3 23];
                    ControlLoop.Turn 8 0%Q; ControlLoop.Turn 9 0%Q;
                    ControlLoop.Turn 9 0%Q]))).
Proof.
  apply (performed_timesteps_increase Q Z Z Q_Arith Q_Order None (1 # 2)%Q (fun o => o)).
  cbn. repeat constructor.
Defined.

(** X9. An observation is forced at most once per reply: in any run of the
    client, from any state, the observations sent with [must_go] set number
    at most one more than the replies received. *)
Theorem forced_observations_bounded_by_replies :
  forall (R O A : Type) (HA : Arith R) (HO : Order R)
         (aggregate_fn : option (A -> A -> A)) (_chunk_size_threshold : R)
         (with_task : O -> O) (self : @ControlLoop.state R A)
         (events : list (@ControlLoop.event R O A)),
    (length (filter (fun o => TimedObservation.must_go o = true)
                    (ControlLoop.sent_observations
                       (ControlLoop.run aggregate_fn _chunk_size_threshold with_task
                          self events)))
     <= 1 + length (ControlLoop.replies events))%nat.
Proof.
  intros R O A HA HO fn threshold with_task self events.
  pose proof (forced_bounded fn threshold with_task events self) as Hbound.
  destruct (ControlLoop.must_go self); lia.
Qed.



(** X11. An empty list of actions as the first reply stops the control
    loop: [action_chunk_size] becomes [max(-1, 0) = 0], and the next turn
    raises [ZeroDivisionError] in [_ready_to_send_observation], whatever the
    turns before the reply and the events after it. *)
Theorem empty_first_reply_stops_control_loop :
  forall (R O A : Type) (HA : Arith R) (HO : Order R)
         (aggregate_fn : option (A -> A -> A)) (_chunk_size_threshold : R)
         (with_task : O -> O) (turns : list (O * R)) (raw_observation : O) (now : R)
         (events : list (@ControlLoop.event R O A)),
    ControlLoop.raised
      (ControlLoop.run aggregate_fn _chunk_size_threshold with_task ControlLoop.init
         (map (fun t => ControlLoop.Turn t.1 t.2) turns
          ++ ControlLoop.Reply [] :: ControlLoop.Turn raw_observation now :: events))
    = Some ControlLoop.ZeroDivisionError.
Proof.
  intros R O A HA HO fn threshold with_task turns raw_observation now events.
  destruct (turns_keep_chunk_size fn threshold with_task turns ControlLoop.init
              ltac:(done)
              (ControlLoop.Reply [] :: ControlLoop.Turn raw_observation now :: events))
    as (self' & Hsize & ->).
  apply empty_reply_raises. rewrite Hsize. cbn. lia.
Qed.

(** X12. Start-up. When the threshold lets a fresh client send, its first
    turn performs nothing and sends the observation of timestep [0] with
    [must_go] set, and clears the client's flag; the server accepts this
    observation at any point of a session, and its next [GetActions] runs
    inference on it. *)
Theorem first_observation_is_forced_and_inferred :
  forall (R O P A : Type) (HA : Arith R) (HO : Order R)
         (_chunk_size_threshold : R) (with_task : O -> O)
         (environment_dt : R)
         (observations_similar : TimedObservation.t R O -> TimedObservation.t R O -> bool)
         (preprocess : TimedObservation.t R O -> option P)
         (predict : P -> option (list A))
         (raw_observation : O) (now : R)
         (before : @PolicyServer.state R O) (calls : list (@PolicyServer.rpc R O)),
    ControlLoop._ready_to_send_observation (A:=A) _chunk_size_threshold ControlLoop.init
    = ControlLoop.Returns true ->
    let observation := TimedObservation.mk now 0 (with_task raw_observation) true in
    let server :=
      fst (PolicyServer.run environment_dt observations_similar preprocess predict
             (PolicyServer.Ready before) calls) in
    ControlLoop.control_loop_turn (A:=A) _chunk_size_threshold with_task
      ControlLoop.init raw_observation now
    = ControlLoop.Returns
        (ControlLoop.mk (RobotClient.mk [] (-1)) false (-1),
         ControlLoop.mkTurn None (Some observation))
    /\ snd (PolicyServer._enqueue_observation observations_similar server observation)
       = true
    /\ PolicyServer.inferred
         (snd (PolicyServer.GetActions environment_dt preprocess predict
                 (PolicyServer.SendObservations observations_similar server observation)))
       = Some observation.
Proof.
  intros R O P A HA HO threshold with_task dt sim pre pred raw now before calls
         Hready observation server.
  split; [|split].
  - rewrite turn_cases. cbn [ControlLoop.init ControlLoop.core RobotClient.action_queue].
    change (ControlLoop.mk (RobotClient.mk [] (-1)) true (-1))
      with (@ControlLoop.init R A).
    by rewrite Hready.
  - done.
  - unfold PolicyServer.SendObservations.
    apply accepted_is_inferred; [|done].
    apply run_queue_bounded. simpl. unfold PolicyServer.maxsize. lia.
Qed.

Lemma first_observation_is_forced_and_inferred_witness :
  ControlLoop.control_loop_turn (R:=Q) (O:=Z) (A:=Z) (1 # 2)%Q (fun o => o)
    ControlLoop.init 7 0%Q
  = ControlLoop.Returns
      (ControlLoop.mk (RobotClient.mk [] (-1)) false (-1),
       ControlLoop.mkTurn None (Some (Demo.obs 0 7 true)))
  /\ snd (Demo.enqueue
            (fst (Demo.server_run (PolicyServer.Ready PolicyServer.init)
                    [PolicyServer.CallSendObservations (Demo.obs 0 7 false);
                     PolicyServer.CallGetActions]))
            (Demo.obs 0 7 true)) = true
  /\ PolicyServer.inferred
       (snd (PolicyServer.GetActions Demo.environment_dt Demo.preprocess Demo.predict
               (PolicyServer.SendObservations Demo.similar
                  (fst (Demo.server_run (PolicyServer.Ready PolicyServer.init)
                          [PolicyServer.CallSendObservations (Demo.obs 0 7 false);
                           PolicyServer.CallGetActions]))
                  (Demo.obs 0 7 true))))
     = Some (Demo.obs 0 7 true).
Proof.
  apply (first_observation_is_forced_and_inferred Q Z Z Z Q_Arith Q_Order (1 # 2)%Q
           (fun o => o) Demo.environment_dt Demo.similar Demo.preprocess Demo.predict
           7 0%Q PolicyServer.init
           [PolicyServer.CallSendObservations (Demo.obs 0 7 false);
            PolicyServer.CallGetActions]).
  reflexivity.
Defined.

(** ** More on the prefix weights *)

Section WeightShapes.
Context {R : Type} `{Arith R} `{Transcend R}.
Implicit Types (self : RTC.RTCConfig R).

Lemma norm_index_range (n i : Z) : 0 <= n -> 0 <= Py.norm_index n i <= n.
Proof. unfold Py.norm_index. destruct (Z.ltb_spec i 0); lia. Qed.

Lemma length_slice_fill {X : Type} (l : list X) (lo hi : option Z) (v : X) :
  length (Py.slice_fill l lo hi v) = length l.
Proof.
  unfold Py.slice_fill, Py.bounds.
  assert (Hlo : 0 <= from_option (Py.norm_index (Z.of_nat (length l))) 0 lo
                <= Z.of_nat (length l)).
  { destruct lo; cbn [from_option]; [apply norm_index_range|]; lia. }
  assert (Hhi : 0 <= from_option (Py.norm_index (Z.of_nat (length l)))
                       (Z.of_nat (length l)) hi
                <= Z.of_nat (length l)).
  { destruct hi; cbn [from_option]; [apply norm_index_range|]; lia. }
  rewrite !length_app, length_take, length_replicate, length_drop. lia.
Qed.

(** The ZEROS and ONES vectors for bounds that are not negative. *)
Lemma zeros_weights self (start end_ total : Z) :
  RTC.prefix_attention_schedule self = RTC.ZEROS ->
  0 <= Z.min start end_ -> 0 <= total ->
  RTC.get_prefix_weights self start end_ total
  = Ok (replicate (Z.to_nat (Z.min (Z.min start end_) total)) fone
        ++ replicate (Z.to_nat (total - Z.min start end_)) fzero).
Proof.
  intros Hs Hstart Htotal. unfold RTC.get_prefix_weights, RTC.torch_full.
  rewrite Hs. destruct (Z.ltb_spec total 0); [lia|]. simpl.
  rewrite slice_fill_prefix by done.
  do 3 f_equal; lia.
Qed.

Lemma ones_weights self (start end_ total : Z) :
  RTC.prefix_attention_schedule self = RTC.ONES ->
  0 <= end_ -> 0 <= total ->
  RTC.get_prefix_weights self start end_ total
  = Ok (replicate (Z.to_nat (Z.min end_ total)) fone
        ++ replicate (Z.to_nat (total - end_)) fzero).
Proof.
  intros Hs Hend Htotal. unfold RTC.get_prefix_weights, RTC.torch_full.
  rewrite Hs. destruct (Z.ltb_spec total 0); [lia|]. simpl.
  rewrite slice_fill_suffix by done.
  do 3 f_equal; lia.
Qed.

Lemma length_linweights (start end_ total : Z) :
  Z.of_nat (length (RTC._linweights (R:=R) start end_ total))
  = if (end_ <=? start) then 0 else Z.max (Z.min end_ total - start) 0.
Proof.
  destruct (Z.leb_spec end_ start).
  - by rewrite linweights_empty by lia.
  - destruct (Z_lt_le_dec start total).
    + rewrite linweights_ramp by done.
      rewrite length_take, length_drop, length_linspace. lia.
    + rewrite linweights_empty by lia. simpl. lia.
Qed.

(** The LINEAR and EXP vectors: ones, a ramp, zeros. *)
Lemma ramp_weights self (start end_ total : Z) :
  RTC.prefix_attention_schedule self = RTC.LINEAR
  \/ RTC.prefix_attention_schedule self = RTC.EXP ->
  exists ramp,
    RTC.get_prefix_weights self start end_ total
    = Ok (replicate (Z.to_nat (Z.min (Z.min start end_) total)) fone
          ++ ramp ++ replicate (Z.to_nat (total - end_)) fzero)
    /\ length ramp = length (RTC._linweights (R:=R) (Z.min start end_) end_ total).
Proof.
  intros [Hs|Hs]; unfold RTC.get_prefix_weights; rewrite Hs;
    rewrite add_leading_ones_eq, add_trailing_zeros_eq; eexists; split;
      try reflexivity.
  by rewrite length_map.
Qed.
End WeightShapes.

(** X13. Whatever the schedule and the arithmetic, for
    [min(start, end) >= 0] and [total >= 0] the prefix weights are a vector
    of [total] elements that is [1] on the positions below
    [min(start, end)] and [0] from the position [end] on: the schedules
    differ on the positions from [min(start, end)] to [end - 1] only. *)
Theorem prefix_weights_agree_outside_the_ramp :
  forall (R : Type) (HA : Arith R) (HT : Transcend R) (self : RTC.RTCConfig R)
         (start end_ total : Z),
    0 <= Z.min start end_ -> 0 <= total ->
    exists w,
      RTC.get_prefix_weights self start end_ total = Ok w
      /\ Z.of_nat (length w) = total
      /\ (forall k : nat,
            Z.of_nat k < Z.min (Z.min start end_) total -> w !! k = Some fone)
      /\ (forall k : nat, end_ <= Z.of_nat k < total -> w !! k = Some fzero).
Proof.
  intros R HA HT self start end_ total Hstart Htotal.
  destruct (RTC.prefix_attention_schedule self) eqn:Hs.
  - eexists. split; [by apply zeros_weights|].
    split; [|split].
    + rewrite length_app, !length_replicate. lia.
    + intros k Hk. rewrite lookup_app_l by (rewrite length_replicate; lia).
      apply lookup_replicate_2. lia.
    + intros k Hk. rewrite lookup_app_r; rewrite length_replicate; [|lia].
      apply lookup_replicate_2. lia.
  - eexists. split; [apply ones_weights; [done|lia|done]|].
    split; [|split].
    + rewrite length_app, !length_replicate. lia.
    + intros k Hk. rewrite lookup_app_l by (rewrite length_replicate; lia).
      apply lookup_replicate_2. lia.
    + intros k Hk. rewrite lookup_app_r; rewrite length_replicate; [|lia].
      apply lookup_replicate_2. lia.
  - destruct (ramp_weights self start end_ total) as (ramp & -> & Hlen); [by left|].
    pose proof (length_linweights (R:=R) (Z.min start end_) end_ total) as Hlin.
    rewrite <- Hlen in Hlin.
    destruct (Z.leb_spec end_ (Z.min start end_)).
    all: eexists; (split; [reflexivity|]); split; [|split].
    all: try (rewrite !length_app, !length_replicate; lia).
    all: try (intros k Hk; rewrite lookup_app_l by (rewrite length_replicate; lia);
              apply lookup_replicate_2; lia).
    all: intros k Hk; rewrite lookup_app_r; rewrite length_replicate; [|lia];
      (rewrite lookup_app_r by lia); apply lookup_replicate_2; lia.
  - destruct (ramp_weights self start end_ total) as (ramp & -> & Hlen); [by right|].
    pose proof (length_linweights (R:=R) (Z.min start end_) end_ total) as Hlin.
    rewrite <- Hlen in Hlin.
    destruct (Z.leb_spec end_ (Z.min start end_)).
    all: eexists; (split; [reflexivity|]); split; [|split].
    all: try (rewrite !length_app, !length_replicate; lia).
    all: try (intros k Hk; rewrite lookup_app_l by (rewrite length_replicate; lia);
              apply lookup_replicate_2; lia).
    all: intros k Hk; rewrite lookup_app_r; rewrite length_replicate; [|lia];
      (rewrite lookup_app_r by lia); apply lookup_replicate_2; lia.
Qed.

(** The EXP schedule in [float32], with [expm1] replaced by the identity. *)
Lemma prefix_weights_agree_outside_the_ramp_witness :
  exists w,
    @RTC.get_prefix_weights spec_float Float.b32_arith Run32.transcend
      (RTC.mkConfig 10 (Run32.z 5) RTC.EXP) 2 6 8 = Ok w
    /\ Z.of_nat (length w) = 8
    /\ w !! 1%nat = Some (SFone 24 128)
    /\ w !! 7%nat = Some (S754_zero false).
Proof.
  destruct (prefix_weights_agree_outside_the_ramp spec_float Float.b32_arith
              Run32.transcend (RTC.mkConfig 10 (Run32.z 5) RTC.EXP) 2 6 8)
    as (w & Hw & Hlen & Hones & Hzeros); [lia|lia|].
  exists w. split; [exact Hw|]. split; [exact Hlen|].
  split; [apply Hones|apply Hzeros]; lia.
Defined.

(** X14. When the inference delay reaches the execution horizon
    ([0 <= end <= start]) the schedule does not matter: the four schedules
    give [1] below [min(end, total)] and [0] from there on. *)
Theorem prefix_weights_without_ramp :
  forall (R : Type) (HA : Arith R) (HT : Transcend R) (self : RTC.RTCConfig R)
         (start end_ total : Z),
    0 <= end_ <= start -> 0 <= total ->
    RTC.get_prefix_weights self start end_ total
    = Ok (replicate (Z.to_nat (Z.min end_ total)) fone
          ++ replicate (Z.to_nat (total - end_)) fzero).
Proof.
  intros R HA HT self start end_ total Hend Htotal.
  destruct (RTC.prefix_attention_schedule self) eqn:Hs.
  - rewrite zeros_weights by (done || lia). do 3 f_equal; lia.
  - by rewrite ones_weights by (done || lia).
  - destruct (ramp_weights self start end_ total) as (ramp & -> & Hlen); [by left|].
    rewrite linweights_empty in Hlen by lia.
    destruct ramp; [|done]. cbn [app]. do 3 f_equal; lia.
  - destruct (ramp_weights self start end_ total) as (ramp & -> & Hlen); [by right|].
    rewrite linweights_empty in Hlen by lia.
    destruct ramp; [|done]. cbn [app]. do 3 f_equal; lia.
Qed.

Lemma prefix_weights_without_ramp_witness :
  Forall (fun schedule =>
            Exact.weights schedule 5 3 4 = Ok [1; 1; 1; 0]%Q)
         [RTC.ZEROS; RTC.ONES; RTC.LINEAR; RTC.EXP].
Proof.
  repeat (constructor;
          [apply (prefix_weights_without_ramp Q Q_Arith Exact.transcend); lia|]).
  constructor.
Defined.

(** X15. [RuntimeError] is the only exception, and it is raised under ZEROS
    and ONES exactly when [total] is negative; these two schedules return
    [total] weights otherwise, whatever [start] and [end]. LINEAR and EXP
    return a vector for all integers. *)
Theorem prefix_weights_raise_on_negative_total_only :
  forall (R : Type) (HA : Arith R) (HT : Transcend R) (self : RTC.RTCConfig R)
         (start end_ total : Z),
    match RTC.prefix_attention_schedule self with
    | RTC.ZEROS | RTC.ONES =>
        if total <? 0
        then RTC.get_prefix_weights self start end_ total = Raise RuntimeError
        else exists w, RTC.get_prefix_weights self start end_ total = Ok w
                       /\ Z.of_nat (length w) = total
    | RTC.LINEAR | RTC.EXP =>
        exists w, RTC.get_prefix_weights self start end_ total = Ok w
    end.
Proof.
  intros R HA HT self start end_ total.
  unfold RTC.get_prefix_weights, RTC.torch_full.
  destruct (RTC.prefix_attention_schedule self); try by eexists.
  all: destruct (Z.ltb_spec total 0); [done|]; simpl.
  all: eexists; split; [done|].
  all: rewrite length_slice_fill, length_replicate; lia.
Qed.

(** The ramp of the LINEAR schedule lies strictly between [0] and [1]. *)
Lemma linweights_between (start end_ total : Z) :
  Forall (fun v => (0 < v)%Q /\ (v < 1)%Q) (RTC._linweights (R:=Q) start end_ total).
Proof.
  destruct (Z_lt_le_dec start end_) as [Hend|Hend];
    [|rewrite linweights_empty by lia; constructor].
  destruct (Z_lt_le_dec start total) as [Htotal|Htotal];
    [|rewrite linweights_empty by lia; constructor].
  rewrite linweights_ramp by done.
  set (n := Z.min end_ total - start).
  apply Forall_lookup. intros i x Hx.
  assert (Hi : (i < Z.to_nat n)%nat).
  { apply lookup_lt_Some in Hx. rewrite length_take in Hx. lia. }
  rewrite lookup_take_lt, lookup_drop in Hx by done.
  destruct (linspace_one_zero n (1 + i)) as (v & Hv & Hval); [lia|lia|].
  change (@fone Q Q_Arith) with 1%Q in Hx. change (@fzero Q Q_Arith) with 0%Q in Hx.
  rewrite Hv in Hx. injection Hx as <-.
  assert (Hpos : (0 < inject_Z (n + 1))%Q).
  { change 0%Q with (inject_Z 0). rewrite <- Zlt_Qlt. lia. }
  assert (Hlo : (0 < inject_Z (Z.of_nat (1 + i)) / inject_Z (n + 1))%Q).
  { apply Qlt_shift_div_l; [done|]. rewrite Qmult_0_l.
    change 0%Q with (inject_Z 0). rewrite <- Zlt_Qlt. lia. }
  assert (Hhi : (inject_Z (Z.of_nat (1 + i)) / inject_Z (n + 1) < 1)%Q).
  { apply Qlt_shift_div_r; [done|]. rewrite Qmult_1_l.
    rewrite <- Zlt_Qlt. lia. }
  rewrite Hval. split.
  - by apply Qlt_minus_iff in Hhi.
  - apply Qlt_minus_iff.
    assert (Heq : (1 + - (1 - inject_Z (Z.of_nat (1 + i)) / inject_Z (n + 1))
                   == inject_Z (Z.of_nat (1 + i)) / inject_Z (n + 1))%Q) by ring.
    by rewrite Heq.
Qed.

(** X16. In exact arithmetic, for [min(start, end) >= 0] and [total >= 0],
    every LINEAR weight lies in [[0, 1]], and position by position the LINEAR
    vector lies between the ZEROS vector and the ONES vector. *)
Theorem linear_weights_between_zeros_and_ones :
  forall start end_ total : Z,
    0 <= Z.min start end_ -> 0 <= total ->
    exists wz wl wo,
      Exact.weights RTC.ZEROS start end_ total = Ok wz
      /\ Exact.weights RTC.LINEAR start end_ total = Ok wl
      /\ Exact.weights RTC.ONES start end_ total = Ok wo
      /\ Forall2 Qle wz wl
      /\ Forall2 Qle wl wo
      /\ Forall (fun v => (0 <= v)%Q /\ (v <= 1)%Q) wl.
Proof.
  intros start end_ total Hstart Htotal.
  set (s := Z.min start end_) in *.
  pose proof (linweights_between s end_ total) as Hramp.
  pose proof (length_linweights (R:=Q) s end_ total) as Hlen.
  set (ramp := RTC._linweights (R:=Q) s end_ total) in *.
  exists (replicate (Z.to_nat (Z.min s total)) 1%Q
          ++ replicate (length ramp) 0%Q ++ replicate (Z.to_nat (total - end_)) 0%Q),
         (replicate (Z.to_nat (Z.min s total)) 1%Q
          ++ ramp ++ replicate (Z.to_nat (total - end_)) 0%Q),
         (replicate (Z.to_nat (Z.min s total)) 1%Q
          ++ replicate (length ramp) 1%Q ++ replicate (Z.to_nat (total - end_)) 0%Q).
  assert (Hends : s <= end_) by (unfold s; lia).
  split; [|split; [|split; [|split; [|split]]]].
  - unfold Exact.weights. rewrite zeros_weights by done. fold s.
    change (@fone Q Q_Arith) with 1%Q. change (@fzero Q Q_Arith) with 0%Q.
    rewrite <- replicate_add. do 3 f_equal.
    destruct (Z.leb_spec end_ s); lia.
  - unfold Exact.weights, RTC.get_prefix_weights. simpl RTC.prefix_attention_schedule.
    cbv iota. fold s. by rewrite add_leading_ones_eq, add_trailing_zeros_eq.
  - unfold Exact.weights. rewrite ones_weights by (done || lia).
    change (@fone Q Q_Arith) with 1%Q. change (@fzero Q Q_Arith) with 0%Q.
    rewrite app_assoc, <- replicate_add. do 3 f_equal.
    destruct (Z.leb_spec end_ s); lia.
  - apply Forall2_app; [apply Forall2_replicate; apply Qle_refl|].
    apply Forall2_app; [|apply Forall2_replicate; apply Qle_refl].
    apply Forall2_replicate_l; [done|].
    eapply Forall_impl; [exact Hramp|]. intros v [Hv _]. by apply Qlt_le_weak.
  - apply Forall2_app; [apply Forall2_replicate; apply Qle_refl|].
    apply Forall2_app; [|apply Forall2_replicate; apply Qle_refl].
    apply Forall2_replicate_r; [done|].
    eapply Forall_impl; [exact Hramp|]. intros v [_ Hv]. by apply Qlt_le_weak.
  - apply Forall_app. split; [by apply Forall_replicate|].
    apply Forall_app. split; [|by apply Forall_replicate].
    eapply Forall_impl; [exact Hramp|]. intros v [Hlo Hhi].
    split; by apply Qlt_le_weak.
Qed.

Lemma linear_weights_between_zeros_and_ones_witness :
  exists wz wl wo,
    Exact.weights RTC.ZEROS 2 6 8 = Ok wz
    /\ Exact.weights RTC.LINEAR 2 6 8 = Ok wl
    /\ Exact.weights RTC.ONES 2 6 8 = Ok wo
    /\ Forall2 Qle wz wl
    /\ Forall2 Qle wl wo
    /\ Forall (fun v => (0 <= v)%Q /\ (v <= 1)%Q) wl.
Proof.
  apply (linear_weights_between_zeros_and_ones 2 6 8); lia.
Defined.

(** ** The clamp of the guidance scalar, for any time *)

Section ClampFacts.
Variables prec emax : Z.

Lemma nan_to_num_not_nan (x posinf : spec_float) :
  posinf <> S754_nan -> Float.SFnan_to_num prec emax x posinf <> S754_nan.
Proof. intros Hp. by destruct x as [s|[|]| |s m e]. Qed.

Lemma minimum_not_above (x m : spec_float) :
  x <> S754_nan -> m <> S754_nan ->
  Float.SFminimum x m <> S754_nan /\ SFleb (Float.SFminimum x m) m = true.
Proof.
  intros Hx Hm.
  assert (Hmin : Float.SFminimum x m = if SFltb m x then m else x).
  { unfold Float.SFminimum. by destruct x, m. }
  rewrite Hmin. destruct (SFltb m x) eqn:Hlt.
  - split; [done|]. by apply SFleb_refl.
  - split; [done|]. by apply SFltb_false_SFleb.
Qed.
End ClampFacts.

(** X17. The clamp holds for any time: in every binary format, whatever
    [tau] is, in or out of [[0, 1]], infinite or NaN, the scalar [g] of
    [denoise_step] is not NaN and not above [max_guidance_weight], provided
    [max_guidance_weight] is not NaN. *)
Theorem guidance_weight_never_above_max :
  forall (prec emax : Z) (max_guidance_weight tau : spec_float),
    max_guidance_weight <> S754_nan ->
    @RTC.guidance_weight _ (Float.arith prec emax) (Float.ieee prec emax)
      max_guidance_weight tau <> S754_nan
    /\ SFleb (@RTC.guidance_weight _ (Float.arith prec emax) (Float.ieee prec emax)
                max_guidance_weight tau)
             max_guidance_weight = true.
Proof.
  intros prec emax mx tau Hmx.
  unfold RTC.guidance_weight. cbn [minimum nan_to_num Float.ieee].
  apply minimum_not_above; [|done].
  by apply nan_to_num_not_nan.
Qed.

(** In [float32] with [max_guidance_weight = 10]: a NaN time, and
    [tau = 2], where the scalar is negative. *)
Lemma guidance_weight_never_above_max_witness :
  Forall (fun tau =>
            Run32.guidance_weight (Run32.z 10) tau <> S754_nan
            /\ SFleb (Run32.guidance_weight (Run32.z 10) tau) (Run32.z 10) = true)
         [S754_nan; Run32.z 2].
Proof.
  repeat (constructor;
          [apply (guidance_weight_never_above_max 24 128); vm_compute; discriminate|]).
  constructor.
Defined.

(** ** More on [denoise_step] *)

(** X18. The execution horizon is capped by the length of the left-over
    chunk: [denoise_step] with the horizon [h] is [denoise_step] with
    [min(h, T_prev)], where [T_prev] is the second dimension of the left-over
    chunk once it has its batch dimension; without a horizon, the one of the
    configuration is taken. *)
Theorem execution_horizon_is_capped :
  forall (R T : Type) (HA : Arith R) (HI : Ieee R) (HT : Transcend R)
         (HTorch : RTC.Torch R T) (self : RTC.RTCConfig R)
         (x_t prev_chunk_left_over : T) (inference_delay : Z) (time : R)
         (original_denoise_step_partial : RTC.Denoiser T) (h : Z),
    let batched :=
      if RTC.rank_below_3 prev_chunk_left_over
      then RTC.unsqueeze_0 prev_chunk_left_over else prev_chunk_left_over in
    let capped :=
      match RTC.shape batched !! 1%nat with
      | Some prev_len => Z.min h prev_len
      | None => h
      end in
    RTC.denoise_step self x_t (Some prev_chunk_left_over) inference_delay time
      original_denoise_step_partial (Some h)
    = RTC.denoise_step self x_t (Some prev_chunk_left_over) inference_delay time
        original_denoise_step_partial (Some capped)
    /\ RTC.denoise_step self x_t (Some prev_chunk_left_over) inference_delay time
         original_denoise_step_partial None
       = RTC.denoise_step self x_t (Some prev_chunk_left_over) inference_delay time
           original_denoise_step_partial (Some (RTC.execution_horizon self)).
Proof.
  intros R T HA HI HT HTorch self x_t prev delay time denoiser h batched capped.
  split; [|done].
  unfold RTC.denoise_step, RTC.prepare. fold batched.
  unfold RTC.shape_at. subst capped.
  destruct (RTC.shape batched !! 1%nat) as [prev_len|]; [|reflexivity].
  cbn [default from_option id mbind result_bind].
  replace (if prev_len <? Z.min h prev_len then prev_len else Z.min h prev_len)
    with (if prev_len <? h then prev_len else h); [reflexivity|].
  destruct (Z.ltb_spec prev_len h), (Z.ltb_spec prev_len (Z.min h prev_len)); lia.
Qed.

(** X19. A left-over chunk is padded, never cut: when, with their batch
    dimensions, it is at least as long and as wide as [x_t] but not of the
    same shape, [denoise_step] raises [AssertionError]. *)
Theorem longer_left_over_chunk_is_refused :
  forall (R T : Type) (HA : Arith R) (HI : Ieee R) (HT : Transcend R)
         (HTorch : RTC.Torch R T) (self : RTC.RTCConfig R)
         (x_t prev_chunk_left_over : T) (inference_delay : Z) (time : R)
         (original_denoise_step_partial : RTC.Denoiser T)
         (execution_horizon : option Z) (b t a b' t' a' : Z),
    RTC.shape (if RTC.rank_below_3 x_t then RTC.unsqueeze_0 x_t else x_t)
    = [b; t; a] ->
    RTC.shape (if RTC.rank_below_3 prev_chunk_left_over
               then RTC.unsqueeze_0 prev_chunk_left_over else prev_chunk_left_over)
    = [b'; t'; a'] ->
    t <= t' -> a <= a' -> [b'; t'; a'] <> [b; t; a] ->
    RTC.denoise_step self x_t (Some prev_chunk_left_over) inference_delay time
      original_denoise_step_partial execution_horizon
    = Raise AssertionError.
Proof.
  intros R T HA HI HT HTorch self x_t prev delay time denoiser horizon
         b t a b' t' a' Hx Hprev Ht Ha Hne.
  unfold RTC.denoise_step, RTC.prepare, RTC.shape_at. cbv zeta.
  rewrite Hx, Hprev. cbn [lookup list_lookup mbind result_bind].
  destruct (Z.ltb_spec t' t); [lia|].
  cbn [mbind result_bind].
  destruct (Z.ltb_spec a' a); [lia|].
  cbn [mbind result_bind].
  rewrite Hprev. by rewrite bool_decide_eq_false_2.
Qed.

(** A left-over chunk of four steps for a chunk of three, in [float32]. *)
Lemma longer_left_over_chunk_is_refused_witness :
  Run32.denoise_step Run32.config Run32.x_t
    (Some (ListTensor.Mat [[Run32.z 1; Run32.z 1]; [Run32.z 1; Run32.z 1];
                           [Run32.z 1; Run32.z 1]; [Run32.z 1; Run32.z 1]]))
    1 Run32.half Run32.identity_denoiser None
  = Raise AssertionError.
Proof.
  apply (longer_left_over_chunk_is_refused spec_float (ListTensor.tensor spec_float)
           Float.b32_arith Float.b32_ieee Run32.transcend Run32.torch
           Run32.config Run32.x_t _ 1 Run32.half Run32.identity_denoiser None
           1 3 2 1 4 2).
  - reflexivity.
  - reflexivity.
  - lia.
  - lia.
  - discriminate.
Defined.

(** ** The client and the server together *)

Section ChunkAlignment.
Context {R O P A : Type} `{Arith R}.
Variable environment_dt : R.
Variable preprocess : TimedObservation.t R O -> option P.
Variable predict : P -> option (list A).

(** A chunk that [GetActions] returns is stamped from the observation at
    the head of the queue. *)
Lemma get_actions_chunk (self : @PolicyServer.state R O)
    (obs : TimedObservation.t R O) (chunk : list (TimedAction.t R A)) :
  head (PolicyServer.observation_queue self) = Some obs ->
  PolicyServer.actions (snd (PolicyServer.GetActions environment_dt preprocess predict self))
  = Some chunk ->
  exists action_chunk,
    chunk = PolicyServer._time_action_chunk environment_dt
              (TimedObservation.timestamp obs) action_chunk
              (TimedObservation.timestep obs).
Proof.
  unfold PolicyServer.GetActions, PolicyServer._predict_action_chunk.
  destruct (PolicyServer.observation_queue self) as [|o q]; [done|].
  intros [= ->].
  destruct (preprocess obs) as [p|]; [|done].
  destruct (predict p) as [action_chunk|]; [|done].
  cbn. intros [= <-]. by exists action_chunk.
Qed.
End ChunkAlignment.

(** X20. The first action of a chunk arrives too late. An observation sent
    after an action was performed carries [latest_action] as its timestep,
    and the server stamps its chunk of [n] actions from that timestep on; when
    the client merges the chunk, [latest_action] has not decreased, so the
    queue receives the timesteps from the new [latest_action + 1] to
    [timestep + n - 1], never the first action of the chunk. *)
Theorem first_action_of_a_chunk_is_stale :
  forall (R O P A : Type) (HA : Arith R) (with_task : O -> O) (environment_dt : R)
         (preprocess : TimedObservation.t R O -> option P)
         (predict : P -> option (list A))
         (aggregate_fn : option (A -> A -> A))
         (self : @ControlLoop.state R A) (raw_observation : O) (now : R)
         (server : @PolicyServer.state R O) (chunk : list (TimedAction.t R A))
         (later : @RobotClient.state R A),
    let observation :=
      snd (ControlLoop.control_loop_observation with_task self raw_observation now) in
    let sent_at := RobotClient.latest_action (ControlLoop.core self) in
    0 <= sent_at ->
    head (PolicyServer.observation_queue server) = Some observation ->
    PolicyServer.actions
      (snd (PolicyServer.GetActions environment_dt preprocess predict server))
    = Some chunk ->
    sent_at <= RobotClient.latest_action later ->
    RobotClient.timesteps chunk = seqZ sent_at (Z.of_nat (length chunk))
    /\ RobotClient.timesteps
         (RobotClient.action_queue
            (RobotClient._aggregate_action_queues later chunk aggregate_fn))
       = seqZ (RobotClient.latest_action later + 1)
              (sent_at + Z.of_nat (length chunk) - (RobotClient.latest_action later + 1))
    /\ sent_at
       ∉ RobotClient.timesteps
           (RobotClient.action_queue
              (RobotClient._aggregate_action_queues later chunk aggregate_fn)).
Proof.
  intros R O P A HA with_task dt pre pred fn self raw now server chunk later
         observation sent_at Hsent Hhead Hchunk Hlater.
  destruct (get_actions_chunk dt pre pred server observation chunk Hhead Hchunk)
    as [action_chunk ->].
  assert (Hstep : TimedObservation.timestep observation = sent_at).
  { unfold observation, sent_at. cbn. lia. }
  rewrite Hstep.
  assert (Hts : RobotClient.timesteps
                  (PolicyServer._time_action_chunk dt
                     (TimedObservation.timestamp observation) action_chunk sent_at)
                = seqZ sent_at (Z.of_nat (length action_chunk))).
  { apply time_action_chunk_timesteps. }
  assert (Hlen : length (PolicyServer._time_action_chunk dt
                           (TimedObservation.timestamp observation) action_chunk sent_at)
                 = length action_chunk).
  { apply (f_equal length) in Hts. unfold RobotClient.timesteps in Hts.
    rewrite length_map, length_seqZ in Hts. lia. }
  rewrite Hlen.
  assert (Hmerged : RobotClient.timesteps
           (RobotClient.action_queue
              (RobotClient._aggregate_action_queues later
                 (PolicyServer._time_action_chunk dt
                    (TimedObservation.timestamp observation) action_chunk sent_at) fn))
           = seqZ (RobotClient.latest_action later + 1)
                  (sent_at + Z.of_nat (length action_chunk)
                   - (RobotClient.latest_action later + 1))).
  { rewrite merged_timesteps, Hts, filter_seqZ_above.
    by replace (Z.max sent_at (RobotClient.latest_action later + 1))
      with (RobotClient.latest_action later + 1) by lia. }
  split; [exact Hts|]. split; [exact Hmerged|].
  rewrite Hmerged. intros Hin. apply elem_of_seqZ in Hin. lia.
Qed.

(** The observation is sent after timestep [3] was performed; the chunk of
    the server is stamped [3, 4], and the client, still at timestep [3],
    queues [4] alone. *)
Lemma first_action_of_a_chunk_is_stale_witness :
  RobotClient.timesteps
    (PolicyServer._time_action_chunk Demo.environment_dt 0%Q [7; 8] 3)
  = seqZ 3 2
  /\ RobotClient.timesteps
       (RobotClient.action_queue
          (RobotClient._aggregate_action_queues (RobotClient.mk [] 3)
             (PolicyServer._time_action_chunk Demo.environment_dt 0%Q [7; 8] 3) None))
     = seqZ 4 1
  /\ 3 ∉ RobotClient.timesteps
           (RobotClient.action_queue
              (RobotClient._aggregate_action_queues (RobotClient.mk [] 3)
                 (PolicyServer._time_action_chunk Demo.environment_dt 0%Q [7; 8] 3)
                 None)).
Proof.
  apply (first_action_of_a_chunk_is_stale Q Z Z Z Q_Arith (fun o => o)
           Demo.environment_dt Demo.preprocess Demo.predict None
           (ControlLoop.mk (RobotClient.mk [Demo.act 0 4 1] 3) true 2) 7 0%Q
           (PolicyServer.mk [TimedObservation.mk 0%Q 3 7 false] ∅ None)
           (PolicyServer._time_action_chunk Demo.environment_dt 0%Q [7; 8] 3)
           (RobotClient.mk [] 3)).
  - cbn. lia.
  - reflexivity.
  - reflexivity.
  - cbn. lia.
Defined.

(** ** The size of the client's queue *)

Section QueueSize.
Context {R O A : Type} `{Arith R} `{Order R}.
Variable aggregate_fn : option (A -> A -> A).
Variable _chunk_size_threshold : R.
Variable with_task : O -> O.

#[local] Abbreviation cstate := (@ControlLoop.state R A).
#[local] Abbreviation cevent := (@ControlLoop.event R O A).
#[local] Abbreviation crun :=
  (ControlLoop.run aggregate_fn _chunk_size_threshold with_task).
#[local] Abbreviation cturn :=
  (ControlLoop.control_loop_turn _chunk_size_threshold with_task).
#[local] Abbreviation creceive := (ControlLoop.receive_actions (R:=R) aggregate_fn).
#[local] Abbreviation qsize self :=
  (Z.of_nat (length (RobotClient.action_queue (ControlLoop.core self)))).
Implicit Types (self : cstate) (events : list cevent).

Lemma length_omap_le {X Y : Type} (f : X -> option Y) (l : list X) :
  (length (omap f l) <= length l)%nat.
Proof.
  induction l as [|x l IH]; [done|].
  cbn [omap list_omap]. destruct (f x); cbn [length]; lia.
Qed.

Lemma receive_qsize self (timed_actions : list (TimedAction.t R A)) :
  qsize (creceive self timed_actions)
  <= ControlLoop.action_chunk_size (creceive self timed_actions).
Proof.
  cbn. pose proof (length_omap_le
    (RobotClient.aggregate_one (default RobotClient.default_aggregate_fn aggregate_fn)
       (RobotClient.current_action_queue (RobotClient.action_queue (ControlLoop.core self)))
       (RobotClient.latest_action (ControlLoop.core self))) timed_actions).
  lia.
Qed.

Lemma turn_qsize self (raw_observation : O) (now : R) self' (t : ControlLoop.turn) :
  cturn self raw_observation now = ControlLoop.Returns (self', t) ->
  qsize self' <= qsize self.
Proof.
  intros Hturn. apply turn_returns in Hturn as (_ & Hcore & _).
  destruct (RobotClient.action_queue (ControlLoop.core self)) as [|a rest] eqn:Hq;
    destruct Hcore as [Hcore _]; rewrite Hcore, ?Hq; cbn; lia.
Qed.

Lemma run_qsize events : forall self,
  qsize self <= Z.max (ControlLoop.action_chunk_size self) 0 ->
  qsize (ControlLoop.final (crun self events))
  <= Z.max (ControlLoop.action_chunk_size (ControlLoop.final (crun self events))) 0.
Proof.
  induction events as [|[timed_actions|raw_observation now] events IH];
    intros self Hself.
  - done.
  - rewrite run_reply. apply IH.
    pose proof (receive_qsize self timed_actions). lia.
  - cbn [ControlLoop.run].
    destruct (ControlLoop.control_loop_turn _ _ self raw_observation now)
      as [[self' t]|e] eqn:Hturn; [|done].
    cbn [ControlLoop.final]. apply IH.
    pose proof (turn_qsize _ _ _ _ _ Hturn).
    apply turn_returns in Hturn as (-> & _). lia.
Qed.
End QueueSize.

(** X21. The queue of a fresh client never holds more actions than the
    largest chunk received so far: at every point of a run, the number of
    queued actions is at most [max(action_chunk_size, 0)], so the ratio
    compared with the threshold lies in [[0, 1]] once a chunk has arrived. *)
Theorem queue_within_largest_chunk :
  forall (R O A : Type) (HA : Arith R) (HO : Order R)
         (aggregate_fn : option (A -> A -> A)) (_chunk_size_threshold : R)
         (with_task : O -> O) (events : list (@ControlLoop.event R O A)),
    Z.of_nat
      (length
         (RobotClient.action_queue
            (ControlLoop.core
               (ControlLoop.final
                  (ControlLoop.run aggregate_fn _chunk_size_threshold with_task
                     ControlLoop.init events)))))
    <= Z.max
         (ControlLoop.action_chunk_size
            (ControlLoop.final
               (ControlLoop.run aggregate_fn _chunk_size_threshold with_task
                  ControlLoop.init events))) 0.
Proof.
  intros R O A HA HO fn threshold with_task events.
  apply (run_qsize fn threshold with_task events ControlLoop.init). cbn. lia.
Qed.

Section AlwaysReady.
Context {O A : Type}.
Variable aggregate_fn : option (A -> A -> A).
Variable _chunk_size_threshold : Q.
Variable with_task : O -> O.
Hypothesis Hthreshold : (1 <= _chunk_size_threshold)%Q.


End AlwaysReady.


